(** * rviz_satellite: the AerialMapDisplay of [src/aerialmap_display.cpp]

    A shallow embedding of the display's state and of its member functions,
    with the properties of the specification proved about it.

    Conventions of the embedding.
    - The C++ scalar types [double], [float] and [Ogre::Real] are one carrier
      [real] of the class [Scalar]; the implicit conversions between them are
      not modelled.  The class has no laws: where a property needs one, the law
      is a hypothesis of the theorem.  Two instances are given, [binary64]
      (IEEE doubles) and [exact] (rational numbers).
    - [int] values are unbounded integers; the zoom and block properties are
      bounded by the host ([setMin]/[setMax]), far from overflow.
    - Code of other files (Ogre's quaternions, the Mercator helpers, the tile
      cache, rviz's frame manager) is taken through the classes [OgreMath],
      [Mercator] and [TileCacheOps] and the record [FrameManager]. *)

From Stdlib Require Import ZArith QArith Qround Qcanon Floats.
From stdpp Require Import base list strings.

#[local] Open Scope Z_scope.

(** ** Scalars *)

Class Scalar : Type := {
  real : Type;
  (* conversion of an [int] *)
  of_int : Z -> real;
  (* the decimal literal [m * 10^-k] *)
  of_decimal : Z -> nat -> real;
  radd : real -> real -> real;
  rsub : real -> real -> real;
  rmul : real -> real -> real;
  ropp : real -> real;
  (* [std::floor] *)
  rfloor : real -> real;
  (* [==], [>] and [>=] *)
  req_b : real -> real -> bool;
  rgt_b : real -> real -> bool;
  rge_b : real -> real -> bool
}.

(** ** Ogre::Vector3 and the quaternion operations *)

Section Vectors.
Context `{Scalar}.

Record Vector3 : Type := mkVector3 { vx : real; vy : real; vz : real }.

(** [Vector3::operator+], binary [operator-] and unary [operator-] *)
Definition vadd (a b : Vector3) : Vector3 :=
  mkVector3 (radd (vx a) (vx b)) (radd (vy a) (vy b)) (radd (vz a) (vz b)).
Definition vsub (a b : Vector3) : Vector3 :=
  mkVector3 (rsub (vx a) (vx b)) (rsub (vy a) (vy b)) (rsub (vz a) (vz b)).
Definition vneg (a : Vector3) : Vector3 :=
  mkVector3 (ropp (vx a)) (ropp (vy a)) (ropp (vz a)).
End Vectors.

(** Ogre's quaternions are library code: their type, [Inverse],
    [Quaternion * Quaternion] and the rotation [Quaternion * Vector3]. *)
Class OgreMath `{Scalar} : Type := {
  Quaternion : Type;
  qinverse : Quaternion -> Quaternion;
  qmul : Quaternion -> Quaternion -> Quaternion;
  qrot : Quaternion -> Vector3 -> Vector3
}.

(** ** Tiles *)

Record TileCoordinate : Type := mkTileCoordinate { tx : Z; ty : Z }.

(** Modelled from the spec: the declaration of [TileId] is in a header outside
    this file; a TileIdentity is \{source, index, zoom\} and its equality is
    structural over all three fields. *)
Record TileId : Type := mkTileId {
  tileServer : string;
  coord : TileCoordinate;
  zoom : Z
}.

Definition TileCoordinate_eqb (a b : TileCoordinate) : bool :=
  (tx a =? tx b) && (ty a =? ty b).

Definition TileId_eqb (a b : TileId) : bool :=
  String.eqb (tileServer a) (tileServer b)
  && TileCoordinate_eqb (coord a) (coord b)
  && (zoom a =? zoom b).

(** The members of [Area] that the display reads. *)
Record Area : Type := mkAreaRecord {
  leftTop : TileCoordinate;
  rightBottom : TileCoordinate;
  center : TileId
}.

(** What the display reads of a ready tile: [tile->texture->getName()]. *)
Record OgreTile : Type := mkOgreTile { texture_name : string }.

Section Geodesy.
Context `{Scalar}.

Record WGSCoordinate : Type := mkWGS { lat : real; lon : real }.

(** [TileCoordinateGeneric<double>] *)
Record TileCoordinateD : Type := mkTileCoordinateD { txd : real; tyd : real }.
End Geodesy.

(** The Mercator helpers of the projection header: [fromWGSCoordinate] at its
    default numeric type [int] and at [double], and [zoomToResolution]. *)
Class Mercator `{Scalar} : Type := {
  fromWGSCoordinate : WGSCoordinate -> Z -> TileCoordinate;
  fromWGSCoordinate_double : WGSCoordinate -> Z -> TileCoordinateD;
  zoomToResolution : real -> Z -> real
}.

(** The tile cache and the constructor [Area(TileId, int)].  [cache_request]
    returns the cache after the call and the message of the exception it
    threw, if any. *)
Class TileCacheOps `{Scalar} : Type := {
  TileCache : Type;
  mkArea : TileId -> Z -> Area;
  cache_request : TileCache -> Area -> TileCache * option string;
  cache_ready : TileCache -> TileId -> option OgreTile;
  cache_purge : TileCache -> Area -> TileCache;
  getTileServerErrorRate : TileCache -> string -> real
}.

(** ** Status reports *)

Module StatusProperty.
Inductive Level : Type := Ok | Warn | Error.
End StatusProperty.

Record Status : Type := mkStatus {
  st_level : StatusProperty.Level;
  st_name : string;
  st_text : string
}.

(** ** The frame manager *)

(** [ros::Time] in nanoseconds; [ros::Time()] is zero. *)
Definition Time : Type := Z.
Definition Time0 : Time := 0.

Definition MAP_FRAME : string := "map".

Section Display.
Context `{Scalar} `{!OgreMath} `{!Mercator} `{!TileCacheOps}.

(** [FrameManager::getTransform] gives the position and orientation of a frame
    in the fixed frame, or fails; [transformHasProblems] gives the description
    of the problem when it returns [true]. *)
Record FrameManager : Type := mkFrameManager {
  getTransform : string -> Time -> option (Vector3 * Quaternion);
  transformHasProblems : string -> Time -> option string
}.

(** The members of [sensor_msgs::NavSatFix] that the display reads. *)
Record NavSatFix : Type := mkNavSatFix {
  frame_id : string;
  stamp : Time;
  latitude : real;
  longitude : real
}.

(** ** Scene objects *)

Inductive SceneBlendType : Type := SBT_REPLACE | SBT_TRANSPARENT_ALPHA.
Inductive RenderQueueGroup : Type := RENDER_QUEUE_3 | RENDER_QUEUE_MAIN.

(** A vertex of a tile's quad: [position(x, y, 0)] and [textureCoord(u, v)];
    the normal is always (0, 0, 1). *)
Record Vertex : Type := mkVertex { px : real; py : real; tu : Z; tv : Z }.

(** A [MapObject]: the manual object and its material, with the settings that
    the display gives them.  [name_suffix] is the value of the counter that
    names both. *)
Record MapObject : Type := mkMapObject {
  name_suffix : Z;
  visible : bool;
  texture : option string;
  depth_write : bool;
  scene_blending : option SceneBlendType;
  render_queue : option RenderQueueGroup;
  alpha_operation : option real;
  vertices : list Vertex
}.

Inductive CacheCall : Type :=
| Request (area : Area)
| Purge (area : Area).

(** ** The display *)

Record Display : Type := mkDisplay {
  (** [isEnabled()], a property of the host's base class *)
  isEnabled : bool;
  (** the base class's name of the fixed frame *)
  fixed_frame_ : string;
  dirty_ : bool;
  alpha_ : real;
  draw_under_ : bool;
  tile_url_ : string;
  zoom_ : Z;
  blocks_ : Z;
  (** [nullptr] is [None] *)
  ref_fix_ : option NavSatFix;
  (** [boost::none] is [None] *)
  lastCenterTile_ : option TileId;
  objects_ : list MapObject;
  (** the [static int count] of [createTileObjects] *)
  count : Z;
  tileCache_ : TileCache;
  (** ghost: the calls made on [tileCache_], latest first *)
  cache_calls : list CacheCall;
  t_centertile_map : Vector3;
  (** [scene_node_]'s position and orientation *)
  scene_position : Vector3;
  scene_orientation : Quaternion;
  (** the reports of [setStatus], latest first *)
  statuses : list Status
}.

(** Assignments to one member. *)
Definition with_isEnabled (v : bool) (d : Display) : Display :=
  mkDisplay v (fixed_frame_ d) (dirty_ d) (alpha_ d) (draw_under_ d)
    (tile_url_ d) (zoom_ d) (blocks_ d) (ref_fix_ d) (lastCenterTile_ d)
    (objects_ d) (count d) (tileCache_ d) (cache_calls d)
    (t_centertile_map d) (scene_position d) (scene_orientation d)
    (statuses d).
Definition with_fixed_frame_ (v : string) (d : Display) : Display :=
  mkDisplay (isEnabled d) v (dirty_ d) (alpha_ d) (draw_under_ d)
    (tile_url_ d) (zoom_ d) (blocks_ d) (ref_fix_ d) (lastCenterTile_ d)
    (objects_ d) (count d) (tileCache_ d) (cache_calls d)
    (t_centertile_map d) (scene_position d) (scene_orientation d)
    (statuses d).
Definition with_dirty_ (v : bool) (d : Display) : Display :=
  mkDisplay (isEnabled d) (fixed_frame_ d) v (alpha_ d) (draw_under_ d)
    (tile_url_ d) (zoom_ d) (blocks_ d) (ref_fix_ d) (lastCenterTile_ d)
    (objects_ d) (count d) (tileCache_ d) (cache_calls d)
    (t_centertile_map d) (scene_position d) (scene_orientation d)
    (statuses d).
Definition with_alpha_ (v : real) (d : Display) : Display :=
  mkDisplay (isEnabled d) (fixed_frame_ d) (dirty_ d) v (draw_under_ d)
    (tile_url_ d) (zoom_ d) (blocks_ d) (ref_fix_ d) (lastCenterTile_ d)
    (objects_ d) (count d) (tileCache_ d) (cache_calls d)
    (t_centertile_map d) (scene_position d) (scene_orientation d)
    (statuses d).
Definition with_draw_under_ (v : bool) (d : Display) : Display :=
  mkDisplay (isEnabled d) (fixed_frame_ d) (dirty_ d) (alpha_ d) v
    (tile_url_ d) (zoom_ d) (blocks_ d) (ref_fix_ d) (lastCenterTile_ d)
    (objects_ d) (count d) (tileCache_ d) (cache_calls d)
    (t_centertile_map d) (scene_position d) (scene_orientation d)
    (statuses d).
Definition with_tile_url_ (v : string) (d : Display) : Display :=
  mkDisplay (isEnabled d) (fixed_frame_ d) (dirty_ d) (alpha_ d)
    (draw_under_ d) v (zoom_ d) (blocks_ d) (ref_fix_ d) (lastCenterTile_ d)
    (objects_ d) (count d) (tileCache_ d) (cache_calls d)
    (t_centertile_map d) (scene_position d) (scene_orientation d)
    (statuses d).
Definition with_zoom_ (v : Z) (d : Display) : Display :=
  mkDisplay (isEnabled d) (fixed_frame_ d) (dirty_ d) (alpha_ d)
    (draw_under_ d) (tile_url_ d) v (blocks_ d) (ref_fix_ d)
    (lastCenterTile_ d) (objects_ d) (count d) (tileCache_ d)
    (cache_calls d) (t_centertile_map d) (scene_position d)
    (scene_orientation d) (statuses d).
Definition with_blocks_ (v : Z) (d : Display) : Display :=
  mkDisplay (isEnabled d) (fixed_frame_ d) (dirty_ d) (alpha_ d)
    (draw_under_ d) (tile_url_ d) (zoom_ d) v (ref_fix_ d)
    (lastCenterTile_ d) (objects_ d) (count d) (tileCache_ d)
    (cache_calls d) (t_centertile_map d) (scene_position d)
    (scene_orientation d) (statuses d).
Definition with_ref_fix_ (v : option NavSatFix) (d : Display) : Display :=
  mkDisplay (isEnabled d) (fixed_frame_ d) (dirty_ d) (alpha_ d)
    (draw_under_ d) (tile_url_ d) (zoom_ d) (blocks_ d) v
    (lastCenterTile_ d) (objects_ d) (count d) (tileCache_ d)
    (cache_calls d) (t_centertile_map d) (scene_position d)
    (scene_orientation d) (statuses d).
Definition with_lastCenterTile_ (v : option TileId) (d : Display) : Display :=
  mkDisplay (isEnabled d) (fixed_frame_ d) (dirty_ d) (alpha_ d)
    (draw_under_ d) (tile_url_ d) (zoom_ d) (blocks_ d) (ref_fix_ d) v
    (objects_ d) (count d) (tileCache_ d) (cache_calls d)
    (t_centertile_map d) (scene_position d) (scene_orientation d)
    (statuses d).
Definition with_objects_ (v : list MapObject) (d : Display) : Display :=
  mkDisplay (isEnabled d) (fixed_frame_ d) (dirty_ d) (alpha_ d)
    (draw_under_ d) (tile_url_ d) (zoom_ d) (blocks_ d) (ref_fix_ d)
    (lastCenterTile_ d) v (count d) (tileCache_ d) (cache_calls d)
    (t_centertile_map d) (scene_position d) (scene_orientation d)
    (statuses d).
Definition with_count (v : Z) (d : Display) : Display :=
  mkDisplay (isEnabled d) (fixed_frame_ d) (dirty_ d) (alpha_ d)
    (draw_under_ d) (tile_url_ d) (zoom_ d) (blocks_ d) (ref_fix_ d)
    (lastCenterTile_ d) (objects_ d) v (tileCache_ d) (cache_calls d)
    (t_centertile_map d) (scene_position d) (scene_orientation d)
    (statuses d).
Definition with_tileCache_ (v : TileCache) (d : Display) : Display :=
  mkDisplay (isEnabled d) (fixed_frame_ d) (dirty_ d) (alpha_ d)
    (draw_under_ d) (tile_url_ d) (zoom_ d) (blocks_ d) (ref_fix_ d)
    (lastCenterTile_ d) (objects_ d) (count d) v (cache_calls d)
    (t_centertile_map d) (scene_position d) (scene_orientation d)
    (statuses d).
Definition with_cache_calls (v : list CacheCall) (d : Display) : Display :=
  mkDisplay (isEnabled d) (fixed_frame_ d) (dirty_ d) (alpha_ d)
    (draw_under_ d) (tile_url_ d) (zoom_ d) (blocks_ d) (ref_fix_ d)
    (lastCenterTile_ d) (objects_ d) (count d) (tileCache_ d) v
    (t_centertile_map d) (scene_position d) (scene_orientation d)
    (statuses d).
Definition with_t_centertile_map (v : Vector3) (d : Display) : Display :=
  mkDisplay (isEnabled d) (fixed_frame_ d) (dirty_ d) (alpha_ d)
    (draw_under_ d) (tile_url_ d) (zoom_ d) (blocks_ d) (ref_fix_ d)
    (lastCenterTile_ d) (objects_ d) (count d) (tileCache_ d)
    (cache_calls d) v (scene_position d) (scene_orientation d) (statuses d).
Definition with_scene_position (v : Vector3) (d : Display) : Display :=
  mkDisplay (isEnabled d) (fixed_frame_ d) (dirty_ d) (alpha_ d)
    (draw_under_ d) (tile_url_ d) (zoom_ d) (blocks_ d) (ref_fix_ d)
    (lastCenterTile_ d) (objects_ d) (count d) (tileCache_ d)
    (cache_calls d) (t_centertile_map d) v (scene_orientation d)
    (statuses d).
Definition with_scene_orientation (v : Quaternion) (d : Display) : Display :=
  mkDisplay (isEnabled d) (fixed_frame_ d) (dirty_ d) (alpha_ d)
    (draw_under_ d) (tile_url_ d) (zoom_ d) (blocks_ d) (ref_fix_ d)
    (lastCenterTile_ d) (objects_ d) (count d) (tileCache_ d)
    (cache_calls d) (t_centertile_map d) (scene_position d) v (statuses d).
Definition with_statuses (v : list Status) (d : Display) : Display :=
  mkDisplay (isEnabled d) (fixed_frame_ d) (dirty_ d) (alpha_ d)
    (draw_under_ d) (tile_url_ d) (zoom_ d) (blocks_ d) (ref_fix_ d)
    (lastCenterTile_ d) (objects_ d) (count d) (tileCache_ d)
    (cache_calls d) (t_centertile_map d) (scene_position d)
    (scene_orientation d) v.

Definition setStatus (level : StatusProperty.Level) (name text : string)
  (d : Display) : Display :=
  with_statuses (mkStatus level name text :: statuses d) d.

(** ** Property slots

    Each slot takes the value that the property holds. *)

Definition updateAlpha (alpha : real) (d : Display) : Display :=
  if req_b alpha (alpha_ d) then d
  else
    let d := with_alpha_ alpha d in
    if negb (isEnabled d) then d
    else with_dirty_ true d.

Definition updateDrawUnder (draw_under : bool) (d : Display) : Display :=
  if Bool.eqb draw_under (draw_under_ d) then d
  else
    let d := with_draw_under_ draw_under d in
    if negb (isEnabled d) then d
    else with_dirty_ true d.

(** ** Tile objects *)

Definition destroyTileObjects (d : Display) : Display :=
  with_objects_ [] d.

(** The object that one round of the loop of [createTileObjects] appends:
    invisible, no texture yet, depth writes off. *)
Definition new_object (suffix : Z) : MapObject :=
  mkMapObject suffix false None false None None None [].

Fixpoint create_loop (rounds : nat) (d : Display) : Display :=
  match rounds with
  | O => d
  | S rounds' =>
      let name_suffix := count d in
      let d := with_count (count d + 1) d in
      create_loop rounds'
        (with_objects_ (objects_ d ++ [new_object name_suffix]) d)
  end.

Definition createTileObjects (d : Display) : Display :=
  let d := match objects_ d with
           | [] => d
           | _ :: _ => destroyTileObjects d
           end in
  create_loop (Z.to_nat ((2 * blocks_ d + 1) * (2 * blocks_ d + 1))) d.

Definition clearAll (d : Display) : Display :=
  let d := with_ref_fix_ None d in
  let d := with_lastCenterTile_ None d in
  let d := destroyTileObjects d in
  setStatus StatusProperty.Warn "Message" "No map received yet" d.

(** ** Tile requests *)

Definition requestTileTextures (d : Display) : Display :=
  if negb (isEnabled d) then d
  else if String.eqb (tile_url_ d) "" then
    setStatus StatusProperty.Error "TileRequest" "Tile URL is not set" d
  else
    match lastCenterTile_ d with
    | None =>
        setStatus StatusProperty.Error "Message" "No NavSatFix received yet" d
    | Some c =>
        let area := mkArea c (blocks_ d) in
        let (cache, thrown) := cache_request (tileCache_ d) area in
        let d := with_cache_calls (Request area :: cache_calls d)
                   (with_tileCache_ cache d) in
        match thrown with
        | None => with_dirty_ true d
        | Some what => setStatus StatusProperty.Error "TileRequest" what d
        end
    end.

Definition checkRequestErrorRate (d : Display) : Display :=
  let errorRate := getTileServerErrorRate (tileCache_ d) (tile_url_ d) in
  if rgt_b errorRate (of_decimal 95 2) then
    setStatus StatusProperty.Error "TileRequest" "Few or no tiles received" d
  else if rgt_b errorRate (of_decimal 3 1) then
    setStatus StatusProperty.Warn "TileRequest"
      "Not all requested tiles have been received. Possibly the server is throttling?"
      d
  else
    setStatus StatusProperty.Ok "TileRequest" "OK" d.

(** ** Tile size *)

(** A [const] member: it reads nothing of the display. *)
Definition getTileWH (d : Display) (latitude : real) (zoom : Z) : real :=
  let tile_w_h_px := 256 in
  let resolution := zoomToResolution latitude zoom in
  let tile_w_h_m := rmul (of_int tile_w_h_px) resolution in
  tile_w_h_m.

(** ** The transform from the frame of the fix to the map frame *)

(** The result is the position and orientation on success and the text of
    [error] on failure. *)
Definition getMapTransform (fm : FrameManager) (query_frame : string)
  (timestamp : Time) : (Vector3 * Quaternion) + string :=
  match getTransform fm query_frame timestamp with
  | None =>
      inr match transformHasProblems fm query_frame timestamp with
          | Some error => error
          | None =>
              String.append "Could not transform from ["
                (String.append query_frame
                   "] to Fixed Frame for an unknown reason")
          end
  | Some (t_query_fixed, o_query_fixed) =>
      match getTransform fm MAP_FRAME timestamp with
      | None =>
          inr match transformHasProblems fm query_frame timestamp with
              | Some error => error
              | None =>
                  String.append "Could not transform from ["
                    (String.append MAP_FRAME
                       "] to Fixed Frame for an unknown reason")
              end
      | Some (t_map_fixed, o_map_fixed) =>
          let orientation := qmul (qinverse o_map_fixed) o_query_fixed in
          let position :=
            vadd (qrot (qinverse o_map_fixed) t_query_fixed)
                 (qrot (qinverse o_map_fixed) (vneg t_map_fixed)) in
          inl (position, orientation)
      end
  end.

Definition transformTileToMapFrame (fm : FrameManager) (d : Display)
  : Display :=
  match ref_fix_ d with
  | None => d
  | Some ref_fix =>
      match getMapTransform fm (frame_id ref_fix) (stamp ref_fix) with
      | inr error => setStatus StatusProperty.Error "Transform" error d
      | inl (t_navsat_map, o_navsat_map) =>
          let centerTile :=
            fromWGSCoordinate_double (mkWGS (latitude ref_fix) (longitude ref_fix))
              (zoom_ d) in
          let centerTileOffsetX :=
            rsub (txd centerTile) (rfloor (txd centerTile)) in
          let centerTileOffsetY :=
            rsub (of_int 1)
              (rsub (tyd centerTile) (rfloor (tyd centerTile))) in
          let tile_w_h_m := getTileWH d (latitude ref_fix) (zoom_ d) in
          let translationAerialMapToNavSatFix :=
            mkVector3 (rmul centerTileOffsetX tile_w_h_m)
              (rmul centerTileOffsetY tile_w_h_m) (of_int 0) in
          let translationNavSatFixToAerialMap :=
            vneg translationAerialMapToNavSatFix in
          with_t_centertile_map
            (vadd t_navsat_map translationNavSatFixToAerialMap) d
      end
  end.

(** ** The center tile *)

Definition updateCenterTile (fm : FrameManager) (msg : NavSatFix)
  (d : Display) : Display :=
  if negb (isEnabled d) then d
  else
    let tileCoordinates :=
      fromWGSCoordinate (mkWGS (latitude msg) (longitude msg)) (zoom_ d) in
    let newCenterTileID := mkTileId (tile_url_ d) tileCoordinates (zoom_ d) in
    let centerTileChanged :=
      match lastCenterTile_ d with
      | None => true
      | Some last => negb (TileId_eqb newCenterTileID last)
      end in
    if negb centerTileChanged then d
    else
      let d := with_lastCenterTile_ (Some newCenterTileID) d in
      let d := with_ref_fix_ (Some msg) d in
      let d := requestTileTextures d in
      transformTileToMapFrame fm d.

Definition navFixCallback (fm : FrameManager) (msg : NavSatFix)
  (d : Display) : Display :=
  let d := updateCenterTile fm msg d in
  setStatus StatusProperty.Ok "Message" "NavSatFix okay" d.

(** ** The remaining property slots *)

Definition updateTileUrl (tile_url : string) (d : Display) : Display :=
  if String.eqb tile_url (tile_url_ d) then d
  else
    let d := with_tile_url_ tile_url d in
    if negb (isEnabled d) then d
    else requestTileTextures d.

Definition updateZoom (fm : FrameManager) (zoom : Z) (d : Display)
  : Display :=
  if zoom =? zoom_ d then d
  else
    let d := with_zoom_ zoom d in
    if negb (isEnabled d) then d
    else
      let d := createTileObjects d in
      match ref_fix_ d with
      | Some ref_fix => updateCenterTile fm ref_fix d
      | None => d
      end.

Definition updateBlocks (blocks : Z) (d : Display) : Display :=
  if blocks =? blocks_ d then d
  else
    let d := with_blocks_ blocks d in
    if negb (isEnabled d) then d
    else requestTileTextures (createTileObjects d).

(** ** Scene assembly *)

(** The six vertices of a tile's quad, in the order the code emits them. *)
Definition tile_quad (x y tile_w_h_m : real) : list Vertex :=
  [ mkVertex x y 0 0;
    mkVertex (radd x tile_w_h_m) (radd y tile_w_h_m) 1 1;
    mkVertex x (radd y tile_w_h_m) 0 1;
    mkVertex x y 0 0;
    mkVertex (radd x tile_w_h_m) y 1 0;
    mkVertex (radd x tile_w_h_m) (radd y tile_w_h_m) 1 1 ].

(** The branch of a tile that is not ready: [obj->setVisible(false)]. *)
Definition hide_object (o : MapObject) : MapObject :=
  mkMapObject (name_suffix o) false (texture o) (depth_write o)
    (scene_blending o) (render_queue o) (alpha_operation o) (vertices o).

(** The branch of a ready tile. *)
Definition show_object (d : Display) (c : TileId) (ref_fix : NavSatFix)
  (xx yy : Z) (tile : OgreTile) (o : MapObject) : MapObject :=
  let opaque := rge_b (alpha_ d) (of_decimal 9998 4) in
  let tile_w_h_m := getTileWH d (latitude ref_fix) (zoom_ d) in
  let x := rmul (of_int (xx - tx (coord c))) tile_w_h_m in
  let y := rmul (of_int (- (yy - ty (coord c)))) tile_w_h_m in
  mkMapObject (name_suffix o) true (Some (texture_name tile))
    (if opaque then negb (draw_under_ d) else false)
    (Some (if opaque then SBT_REPLACE else SBT_TRANSPARENT_ALPHA))
    (Some (if draw_under_ d then RENDER_QUEUE_3 else RENDER_QUEUE_MAIN))
    (Some (alpha_ d))
    (tile_quad x y tile_w_h_m).

(** The state of the two loops: the objects, the iterator [it] as an index
    into them, and [loadedAllTiles]. *)
Record LoopState : Type := mkLoopState {
  ls_objects : list MapObject;
  ls_it : nat;
  loadedAllTiles : bool
}.

(** One round of the inner loop.  [None] is undefined behaviour: [it] is
    dereferenced past the end of [objects_], or [ref_fix_] is dereferenced
    while null. *)
Definition assemble_tile (d : Display) (c : TileId) (xx yy : Z)
  (st : LoopState) : option LoopState :=
  match ls_objects st !! ls_it st with
  | None => None
  | Some o =>
      let toFind := mkTileId (tileServer c) (mkTileCoordinate xx yy) (zoom c) in
      match cache_ready (tileCache_ d) toFind with
      | None =>
          Some (mkLoopState (<[ls_it st := hide_object o]> (ls_objects st))
                  (S (ls_it st)) false)
      | Some tile =>
          match ref_fix_ d with
          | None => None
          | Some ref_fix =>
              Some (mkLoopState
                      (<[ls_it st := show_object d c ref_fix xx yy tile o]>
                         (ls_objects st))
                      (S (ls_it st)) (loadedAllTiles st))
          end
      end
  end.

Fixpoint for_yy (d : Display) (c : TileId) (xx : Z) (ys : list Z)
  (st : LoopState) : option LoopState :=
  match ys with
  | [] => Some st
  | yy :: ys' =>
      match assemble_tile d c xx yy st with
      | None => None
      | Some st' => for_yy d c xx ys' st'
      end
  end.

Fixpoint for_xx (d : Display) (c : TileId) (xs ys : list Z)
  (st : LoopState) : option LoopState :=
  match xs with
  | [] => Some st
  | xx :: xs' =>
      match for_yy d c xx ys st with
      | None => None
      | Some st' => for_xx d c xs' ys st'
      end
  end.

(** The values of a loop variable that runs from [lo] to [hi] inclusive. *)
Definition int_range (lo hi : Z) : list Z := seqZ lo (hi + 1 - lo).

Definition assembleScene (d : Display) : option Display :=
  if negb (isEnabled d) || negb (dirty_ d) then Some d
  else
    match lastCenterTile_ d with
    | None => Some d
    | Some c =>
        match objects_ d with
        | [] => Some d
        | _ :: _ =>
            let d := with_dirty_ false d in
            let area := mkArea c (blocks_ d) in
            match for_xx d c
                    (int_range (tx (leftTop area)) (tx (rightBottom area)))
                    (int_range (ty (leftTop area)) (ty (rightBottom area)))
                    (mkLoopState (objects_ d) 0 true) with
            | None => None
            | Some st =>
                let d := with_objects_ (ls_objects st) d in
                let d := if loadedAllTiles st then d
                         else with_dirty_ true d in
                let purged := mkArea c (blocks_ d) in
                let d := with_cache_calls (Purge purged :: cache_calls d)
                           (with_tileCache_
                              (cache_purge (tileCache_ d) purged) d) in
                Some (checkRequestErrorRate d)
            end
        end
    end.

(** ** The transform from the map frame to the fixed frame *)

Definition transformMapTileToFixedFrame (fm : FrameManager) (d : Display)
  : Display :=
  match getTransform fm MAP_FRAME Time0 with
  | Some (t_fixed_map, o_fixed_map) =>
      let d := setStatus StatusProperty.Ok "Transform" "Transform OK" d in
      let t_centertile_fixed :=
        vadd t_fixed_map (qrot o_fixed_map (t_centertile_map d)) in
      let d := with_scene_position t_centertile_fixed d in
      with_scene_orientation o_fixed_map d
  | None =>
      match transformHasProblems fm MAP_FRAME Time0 with
      | Some error => setStatus StatusProperty.Error "Transform" error d
      | None =>
          setStatus StatusProperty.Error "Transform"
            (String.append "Could not transform from ["
               (String.append MAP_FRAME
                  (String.append "] to Fixed Frame ["
                     (String.append (fixed_frame_ d)
                        "] for an unknown reason")))) d
      end
  end.

(** The render update. *)
Definition update (fm : FrameManager) (d : Display) : option Display :=
  match ref_fix_ d, lastCenterTile_ d with
  | Some _, Some _ =>
      match assembleScene d with
      | None => None
      | Some d => Some (transformMapTileToFixedFrame fm d)
      end
  | _, _ => Some d
  end.

(** ** The hooks of the host

    The host sets [isEnabled] and then calls [onEnable] or [onDisable].  The
    subscription itself is the transport's; of [subscribe] only the status
    report is kept: [topic] is the topic property and [failure] the text of
    the exception of the subscription, if it threw. *)

Definition subscribe (topic : string) (failure : option string)
  (d : Display) : Display :=
  if negb (isEnabled d) then d
  else if String.eqb topic "" then d
  else
    match failure with
    | None => setStatus StatusProperty.Ok "Topic" "OK" d
    | Some what =>
        setStatus StatusProperty.Error "Topic"
          (String.append "Error subscribing: " what) d
    end.

Definition onEnable (topic : string) (failure : option string)
  (d : Display) : Display :=
  subscribe topic failure (createTileObjects d).

Definition onDisable (d : Display) : Display := clearAll d.

Definition updateTopic (topic : string) (failure : option string)
  (d : Display) : Display :=
  if negb (isEnabled d) then d
  else subscribe topic failure (createTileObjects (clearAll d)).

End Display.

(** ** Notions of the specification *)

Section Notions.
Context `{Scalar} `{!OgreMath} `{!Mercator} `{!TileCacheOps}.

(** The fractional part [frac v = v - floor v]. *)
Definition frac (v : real) : real := rsub v (rfloor v).

(** The metric sub-tile offset of a fix, in the words of the specification:
    [(frac(tileIndex.x) * tileEdgeMeters, (1 - frac(tileIndex.y)) *
    tileEdgeMeters, 0)], the tile edge taken at the latitude of the fix. *)
Definition sub_tile_offset (tileEdgeMeters : real -> Z -> real)
  (ref_fix : NavSatFix) (zoom : Z) : Vector3 :=
  let tileIndex :=
    fromWGSCoordinate_double (mkWGS (latitude ref_fix) (longitude ref_fix))
      zoom in
  mkVector3
    (rmul (frac (txd tileIndex)) (tileEdgeMeters (latitude ref_fix) zoom))
    (rmul (rsub (of_int 1) (frac (tyd tileIndex)))
       (tileEdgeMeters (latitude ref_fix) zoom))
    (of_int 0).

(** The center TileIdentity that a fix derives: the source URL, the tile
    coordinates at the current zoom, and the zoom. *)
Definition derived_center_tile (d : Display) (msg : NavSatFix) : TileId :=
  mkTileId (tile_url_ d)
    (fromWGSCoordinate (mkWGS (latitude msg) (longitude msg)) (zoom_ d))
    (zoom_ d).

(** The tile slots of an area, in the order in which the two loops of
    [assembleScene] visit them; the k-th slot is drawn on the k-th object. *)
Definition area_slots (area : Area) : list (Z * Z) :=
  flat_map
    (fun xx =>
       map (fun yy => (xx, yy))
         (int_range (ty (leftTop area)) (ty (rightBottom area))))
    (int_range (tx (leftTop area)) (tx (rightBottom area))).

(** The identity of a slot and whether the cache has it ready. *)
Definition slot_tile (c : TileId) (slot : Z * Z) : TileId :=
  mkTileId (tileServer c) (mkTileCoordinate (fst slot) (snd slot)) (zoom c).

Definition slot_ready (d : Display) (c : TileId) (slot : Z * Z) : bool :=
  match cache_ready (tileCache_ d) (slot_tile c slot) with
  | Some _ => true
  | None => false
  end.

(** What a pass makes of the object of a slot. *)
Definition settled (d : Display) (c : TileId) (ref_fix : NavSatFix)
  (slot : Z * Z) (o : MapObject) : MapObject :=
  match cache_ready (tileCache_ d) (slot_tile c slot) with
  | None => hide_object o
  | Some tile => show_object d c ref_fix (fst slot) (snd slot) tile o
  end.

(** The inner and outer loop as one loop over the slots. *)
Fixpoint assemble_slots (d : Display) (c : TileId) (slots : list (Z * Z))
  (st : LoopState) : option LoopState :=
  match slots with
  | [] => Some st
  | slot :: slots' =>
      match assemble_tile d c (fst slot) (snd slot) st with
      | None => None
      | Some st' => assemble_slots d c slots' st'
      end
  end.

(** A display on which a pass of [assembleScene] runs its loops and stays
    within [objects_]: enabled, with a center tile and a fix, and with an
    object for every slot of the area. *)
Definition pass_runs (d : Display) (c : TileId) (ref_fix : NavSatFix)
  : Prop :=
  isEnabled d = true
  /\ lastCenterTile_ d = Some c
  /\ ref_fix_ d = Some ref_fix
  /\ objects_ d <> []
  /\ (length (area_slots (mkArea c (blocks_ d))) <= length (objects_ d))%nat.

(** Everything that an opacity change must leave alone: all members but
    [alpha_] and [dirty_]. *)
Definition same_but_alpha_and_dirty (d d' : Display) : Prop :=
  isEnabled d' = isEnabled d
  /\ fixed_frame_ d' = fixed_frame_ d
  /\ draw_under_ d' = draw_under_ d
  /\ tile_url_ d' = tile_url_ d
  /\ zoom_ d' = zoom_ d
  /\ blocks_ d' = blocks_ d
  /\ ref_fix_ d' = ref_fix_ d
  /\ lastCenterTile_ d' = lastCenterTile_ d
  /\ objects_ d' = objects_ d
  /\ count d' = count d
  /\ tileCache_ d' = tileCache_ d
  /\ cache_calls d' = cache_calls d
  /\ t_centertile_map d' = t_centertile_map d
  /\ scene_position d' = scene_position d
  /\ scene_orientation d' = scene_orientation d
  /\ statuses d' = statuses d.

(** ** The states that the display reaches *)

(** The display as its constructor leaves it.  The cache, the anchor and the
    pose of the scene node are not initialised by the constructor. *)
Definition initial (frame : string) (cache : TileCache) (anchor : Vector3)
  (position : Vector3) (orientation : Quaternion) : Display :=
  mkDisplay false frame false (of_decimal 7 1) false "" 16 3 None None []
    0 cache [] anchor position orientation [].

(** One call of the host: enabling and disabling, a property slot, a fix, a
    render update. *)
Inductive step : Display -> Display -> Prop :=
| step_enable topic failure d :
    step d (onEnable topic failure (with_isEnabled true d))
| step_disable d :
    step d (onDisable (with_isEnabled false d))
| step_topic topic failure d :
    step d (updateTopic topic failure d)
| step_alpha alpha d :
    step d (updateAlpha alpha d)
| step_draw_under draw_under d :
    step d (updateDrawUnder draw_under d)
| step_tile_url tile_url d :
    step d (updateTileUrl tile_url d)
| step_zoom fm zoom d :
    step d (updateZoom fm zoom d)
| step_blocks blocks d :
    step d (updateBlocks blocks d)
| step_fix fm msg d :
    step d (navFixCallback fm msg d)
| step_update fm d d' :
    update fm d = Some d' -> step d d'.

Inductive reachable : Display -> Prop :=
| reachable_initial frame cache anchor position orientation :
    reachable (initial frame cache anchor position orientation)
| reachable_step d d' :
    reachable d -> step d d' -> reachable d'.

(** The stored center tile carries the zoom of the display, the fix and the
    center tile are set together, and a disabled display has neither. *)
Definition consistent (d : Display) : Prop :=
  (forall c, lastCenterTile_ d = Some c -> zoom c = zoom_ d)
  /\ (ref_fix_ d = None <-> lastCenterTile_ d = None)
  /\ (isEnabled d = false -> lastCenterTile_ d = None).

(** The members that [consistent] reads. *)
Definition core (d : Display)
  : bool * Z * option NavSatFix * option TileId :=
  (isEnabled d, zoom_ d, ref_fix_ d, lastCenterTile_ d).

(** ** Notions for the tile objects and the placement *)

(** The number of tile objects of a grid: (2 blocks + 1)^2. *)
Definition grid_size (blocks : Z) : nat :=
  Z.to_nat ((2 * blocks + 1) * (2 * blocks + 1)).

(** The names of the tile objects, in order. *)
Definition object_names (d : Display) : list Z :=
  map name_suffix (objects_ d).

(** What decides the shape of the grid of objects. *)
Definition geometry (d : Display) : bool * Z * Z * list Z :=
  (isEnabled d, blocks_ d, count d, object_names d).

(** An enabled display has the objects of a full grid, a disabled one has
    none; no two objects share a name, and every name is below the counter
    that gives the next one. *)
Definition tidy (d : Display) : Prop :=
  (isEnabled d = true -> length (objects_ d) = grid_size (blocks_ d))
  /\ (isEnabled d = false -> objects_ d = [])
  /\ NoDup (object_names d)
  /\ Forall (fun n => n < count d) (object_names d).

(** Where the scene is put: the zoom, the fix, the center tile, the anchor
    and the pose of the scene node. *)
Definition placement (d : Display)
  : Z * option NavSatFix * option TileId * Vector3 * Vector3 * Quaternion :=
  (zoom_ d, ref_fix_ d, lastCenterTile_ d, t_centertile_map d,
   scene_position d, scene_orientation d).

(** The stored center tile is the tile of the stored fix at the zoom of the
    display. *)
Definition centered (d : Display) : Prop :=
  forall c : TileId,
    lastCenterTile_ d = Some c ->
    exists ref_fix : NavSatFix,
      ref_fix_ d = Some ref_fix
      /\ coord c =
         fromWGSCoordinate (mkWGS (latitude ref_fix) (longitude ref_fix))
           (zoom_ d)
      /\ zoom c = zoom_ d.

(** An area never holds more tiles than a grid has objects. *)
Definition area_fits : Prop :=
  forall (c : TileId) (blocks : Z),
    (length (area_slots (mkArea c blocks)) <= grid_size blocks)%nat.

(** ** The tile slots of an area, by their coordinates *)

(** The tile (xx, yy) lies in the rectangle of the area, from [leftTop] to
    [rightBottom], both inclusive. *)
Definition in_rectangle (area : Area) (xx yy : Z) : Prop :=
  (tx (leftTop area) <= xx <= tx (rightBottom area))
  /\ (ty (leftTop area) <= yy <= ty (rightBottom area)).

(** The object on which the tile (xx, yy) of the rectangle is drawn: the
    loops of [assembleScene] run over the columns and, in each column, over
    the rows, and take the next object at every round. *)
Definition slot_index (area : Area) (xx yy : Z) : nat :=
  Z.to_nat
    ((xx - tx (leftTop area))
       * (ty (rightBottom area) + 1 - ty (leftTop area))
     + (yy - ty (leftTop area))).

End Notions.

(** Lower case of a text, to compare messages without regard to case. *)
Definition lower_ascii (a : Ascii.ascii) : Ascii.ascii :=
  let n := Ascii.N_of_ascii a in
  if ((65 <=? n) && (n <=? 90))%N then Ascii.ascii_of_N (n + 32) else a.

Fixpoint lower_case (s : string) : string :=
  match s with
  | EmptyString => EmptyString
  | String a s' => String (lower_ascii a) (lower_case s')
  end.

(** ** Two arithmetics *)

(** IEEE 754 binary64, the [double] of the code.  [std::floor] is computed by
    adding and subtracting 2^52, which rounds to an integer. *)
Module Binary64.

(** The conversion of an [int], which fits in 63 bits. *)
Definition of_Z (z : Z) : float :=
  match z with
  | Z0 => PrimFloat.of_uint63 (Uint63.of_Z 0)
  | Zpos _ => PrimFloat.of_uint63 (Uint63.of_Z z)
  | Zneg p => PrimFloat.opp (PrimFloat.of_uint63 (Uint63.of_Z (Zpos p)))
  end.

Definition two52 : float := of_Z (2 ^ 52).

Definition floor (x : float) : float :=
  if PrimFloat.ltb (PrimFloat.abs x) two52 then
    let r := if PrimFloat.ltb x (of_Z 0)
             then PrimFloat.add (PrimFloat.sub x two52) two52
             else PrimFloat.sub (PrimFloat.add x two52) two52 in
    if PrimFloat.ltb x r then PrimFloat.sub r (of_Z 1) else r
  else x.

(** The conversion of a [double] to [int]: truncation. *)
Definition to_int (x : float) : Z :=
  match Prim2SF x with
  | S754_finite s m e =>
      cond_Zopp s (if 0 <=? e then Z.pos m * 2 ^ e else Z.pos m / 2 ^ (- e))
  | _ => 0
  end.

#[export] Instance binary64 : Scalar := {|
  real := float;
  of_int := of_Z;
  of_decimal := fun m k => PrimFloat.div (of_Z m) (of_Z (10 ^ Z.of_nat k));
  radd := PrimFloat.add;
  rsub := PrimFloat.sub;
  rmul := PrimFloat.mul;
  ropp := PrimFloat.opp;
  rfloor := floor;
  req_b := PrimFloat.eqb;
  rgt_b := fun a b => PrimFloat.ltb b a;
  rge_b := fun a b => PrimFloat.leb b a
|}.

End Binary64.

(** Exact arithmetic on the rational numbers. *)
Module Exact.

Definition of_Z (z : Z) : Qc := Q2Qc (inject_Z z).

#[export] Instance exact : Scalar := {|
  real := Qc;
  of_int := of_Z;
  of_decimal := fun m k => Q2Qc (Qmake m (Z.to_pos (10 ^ Z.of_nat k)));
  radd := Qcplus;
  rsub := Qcminus;
  rmul := Qcmult;
  ropp := Qcopp;
  rfloor := fun q => of_Z (Qfloor q);
  req_b := Qc_eq_bool;
  rgt_b := fun a b => negb (Qle_bool a b);
  rge_b := fun a b => Qle_bool b a
|}.

End Exact.

(** ** A small world for examples

    Rotations by quarter turns about the vertical axis, a linear projection,
    and a cache that is a list of ready tiles with the error rate of its
    source. *)
Module World.

Section QuarterTurns.
Context `{Scalar}.

Definition quarter_turn (v : Vector3) : Vector3 :=
  mkVector3 (ropp (vy v)) (vx v) (vz v).

Fixpoint turn (n : nat) (v : Vector3) : Vector3 :=
  match n with
  | O => v
  | S n' => quarter_turn (turn n' v)
  end.

#[export] Instance quarter_turns : OgreMath := {|
  Quaternion := nat;
  qinverse := fun q => ((4 - q mod 4) mod 4)%nat;
  qmul := fun p q => ((p + q) mod 4)%nat;
  qrot := fun q v => turn (q mod 4) v
|}.

Record ListCache : Type := mkListCache {
  ready_tiles : list (TileId * OgreTile);
  error_rate : real
}.

Definition in_area (area : Area) (t : TileId) : bool :=
  (tx (leftTop area) <=? tx (coord t))
  && (tx (coord t) <=? tx (rightBottom area))
  && (ty (leftTop area) <=? ty (coord t))
  && (ty (coord t) <=? ty (rightBottom area)).

Fixpoint find_tile (t : TileId) (l : list (TileId * OgreTile))
  : option OgreTile :=
  match l with
  | [] => None
  | (t', tile) :: l' => if TileId_eqb t t' then Some tile else find_tile t l'
  end.

#[export] Instance list_cache : TileCacheOps := {|
  TileCache := ListCache;
  mkArea := fun c blocks =>
    mkAreaRecord
      (mkTileCoordinate (Z.max 0 (tx (coord c) - blocks))
         (Z.max 0 (ty (coord c) - blocks)))
      (mkTileCoordinate (Z.min (2 ^ zoom c - 1) (tx (coord c) + blocks))
         (Z.min (2 ^ zoom c - 1) (ty (coord c) + blocks)))
      c;
  cache_request := fun cache area =>
    if String.eqb (tileServer (center area)) ""
    then (cache, Some "Invalid tile source")
    else (cache, None);
  cache_ready := fun cache t => find_tile t (ready_tiles cache);
  cache_purge := fun cache area =>
    mkListCache
      (filter (fun e => in_area area (fst e) = true) (ready_tiles cache))
      (error_rate cache);
  getTileServerErrorRate := fun cache _ => error_rate cache
|}.

End QuarterTurns.

(** On the exact numbers: frame managers that know the map frame, turned by
    [q] quarter turns, and a display with the anchor (3/2, -5/2, 0). *)
Section OnExact.
#[local] Existing Instance Exact.exact.

Definition exact_frames (q : nat) : FrameManager :=
  mkFrameManager
    (fun frame _ =>
       if String.eqb frame "map" then
         Some (mkVector3 (of_int 10) (of_int 20) (of_int 0), q)
       else None)
    (fun _ _ => None).

Definition exact_anchored : Display :=
  initial "world" (mkListCache [] (of_int 0))
    (mkVector3 (of_decimal 15 1) (of_decimal (-25) 1) (of_int 0))
    (mkVector3 (of_int 0) (of_int 0) (of_int 0)) 0%nat.

End OnExact.

#[local] Existing Instance Binary64.binary64.

(** An equirectangular projection on the doubles: longitude and latitude
    scaled linearly to the 2^z tiles of a level. *)
Definition tile_x (w : WGSCoordinate) (z : Z) : float :=
  PrimFloat.mul
    (PrimFloat.div (PrimFloat.add (lon w) (Binary64.of_Z 180))
       (Binary64.of_Z 360))
    (Binary64.of_Z (2 ^ z)).

Definition tile_y (w : WGSCoordinate) (z : Z) : float :=
  PrimFloat.mul
    (PrimFloat.div (PrimFloat.sub (Binary64.of_Z 90) (lat w))
       (Binary64.of_Z 180))
    (Binary64.of_Z (2 ^ z)).

#[export] Instance equirectangular : Mercator := {|
  fromWGSCoordinate := fun w z =>
    mkTileCoordinate (Binary64.to_int (tile_x w z))
      (Binary64.to_int (tile_y w z));
  fromWGSCoordinate_double := fun w z =>
    mkTileCoordinateD (tile_x w z) (tile_y w z);
  zoomToResolution := fun _ z =>
    PrimFloat.div (of_decimal 156543034 3) (Binary64.of_Z (2 ^ z))
|}.

Definition origin : Vector3 := mkVector3 (of_int 0) (of_int 0) (of_int 0).

(** A frame manager that knows the frames "map" and "gps", the map frame a
    quarter turn away from the fixed frame, and one that knows none. *)
Definition frames : FrameManager :=
  mkFrameManager
    (fun frame _ =>
       if String.eqb frame "map" then
         Some (mkVector3 (of_int 10) (of_int 20) (of_int 0), 1%nat)
       else if String.eqb frame "gps" then
         Some (mkVector3 (of_int 11) (of_int 22) (of_int 1), 1%nat)
       else None)
    (fun _ _ => None).

Definition frames_turned : FrameManager :=
  mkFrameManager
    (fun frame _ =>
       if String.eqb frame "map" then
         Some (mkVector3 (of_int 10) (of_int 20) (of_int 0), 2%nat)
       else None)
    (fun _ _ => None).

Definition no_frames : FrameManager :=
  mkFrameManager (fun _ _ => None)
    (fun frame _ => Some (String.append "No transform for " frame)).

Definition server : string := "http://tiles/{z}/{x}/{y}.png".

(** A fix at 0.1 degrees north, 0.1 degrees east, and one a little further
    east in the same tile of level 16. *)
Definition fix_a : NavSatFix :=
  mkNavSatFix "gps" 0 (of_decimal 1 1) (of_decimal 1 1).

Definition fix_b : NavSatFix :=
  mkNavSatFix "gps" 5 (of_decimal 1 1) (of_decimal 1001 4).

Definition center_a : TileId :=
  mkTileId server (mkTileCoordinate 32786 32731) 16.

(** A cache that has the center tile and its eastern neighbour ready. *)
Definition cache_a : ListCache :=
  mkListCache
    [ (center_a, mkOgreTile "tile_32786_32731");
      (mkTileId server (mkTileCoordinate 32787 32731) 16,
       mkOgreTile "tile_32787_32731") ]
    (of_decimal 96 2).

(** The display after construction, after the host enabled it, after the
    tile URL was set, and after the fix [fix_a] arrived. *)
Definition constructed : Display :=
  initial "world" cache_a origin origin 0%nat.

Definition enabled : Display :=
  onEnable "/fix" None (with_isEnabled true constructed).

Definition configured : Display := updateTileUrl server enabled.

Definition located : Display := navFixCallback frames fix_a configured.

(** The located display after a pass of [assembleScene] and after a render
    update; both return. *)
Definition assembled : Display := default located (assembleScene located).

Definition rendered : Display := default located (update frames located).

Definition other_server : string := "http://other/{z}/{x}/{y}.png".

(** The located display with the anchor (0.1, 0.2, 0). *)
Definition tilted : Display :=
  with_t_centertile_map
    (mkVector3 (of_decimal 1 1) (of_decimal 2 1) (of_int 0)) located.

End World.

(** * Properties *)

Section Facts.
Context `{Scalar} `{!OgreMath} `{!Mercator} `{!TileCacheOps}.

(** ** Tile identities *)

Lemma TileId_eqb_eq (a b : TileId) : TileId_eqb a b = true <-> a = b.
Proof.
  destruct a as [sa [xa ya] za], b as [sb [xb yb] zb].
  unfold TileId_eqb, TileCoordinate_eqb; cbn.
  rewrite !andb_true_iff, String.eqb_eq, !Z.eqb_eq.
  split.
  - intros [[-> [-> ->]] ->]; reflexivity.
  - intros [= -> -> -> ->]; auto.
Qed.

Lemma TileId_eqb_refl (a : TileId) : TileId_eqb a a = true.
Proof. apply TileId_eqb_eq; reflexivity. Qed.

(** ** Tile size *)

(** C8: for every latitude and zoom, [getTileWH] is the ground resolution
    [zoomToResolution latitude zoom] multiplied by the tile pixel size 256;
    the value is computed from its two arguments alone, whatever the display
    holds, so nothing of an earlier call is kept. *)
Theorem getTileWH_resolution_times_256 (d : Display) (latitude : real)
  (zoom : Z) :
  getTileWH d latitude zoom = rmul (of_int 256) (zoomToResolution latitude zoom)
  /\ forall d' : Display, getTileWH d' latitude zoom = getTileWH d latitude zoom.
Proof. split; [reflexivity | intros d'; reflexivity]. Qed.

(** ** Status of the tile requests *)

(** C3: [checkRequestErrorRate] reports one status under "TileRequest".  It
    is an error with the text "Few or no tiles received" when the error rate
    of the source is greater than 0.95, a warning about throttling when the
    rate is greater than 0.3 and not greater than 0.95, and Ok otherwise. *)
Theorem checkRequestErrorRate_thresholds (d : Display) :
  let errorRate := getTileServerErrorRate (tileCache_ d) (tile_url_ d) in
  exists s : Status,
    statuses (checkRequestErrorRate d) = s :: statuses d
    /\ st_name s = "TileRequest"
    /\ (rgt_b errorRate (of_decimal 95 2) = true ->
        st_level s = StatusProperty.Error
        /\ st_text s = "Few or no tiles received"
        /\ lower_case (st_text s) = "few or no tiles received")
    /\ (rgt_b errorRate (of_decimal 3 1) = true ->
        rgt_b errorRate (of_decimal 95 2) = false ->
        st_level s = StatusProperty.Warn
        /\ st_text s =
           "Not all requested tiles have been received. Possibly the server is throttling?")
    /\ (rgt_b errorRate (of_decimal 3 1) = false ->
        rgt_b errorRate (of_decimal 95 2) = false ->
        st_level s = StatusProperty.Ok).
Proof.
  intros errorRate. unfold checkRequestErrorRate. fold errorRate.
  destruct (rgt_b errorRate (of_decimal 95 2)) eqn:Hhigh;
    [| destruct (rgt_b errorRate (of_decimal 3 1)) eqn:Hlow];
    eexists; (split; [reflexivity |]); cbn;
    repeat split; intros; try discriminate; reflexivity.
Qed.

(** ** The anchor *)

Lemma getMapTransform_fails (fm : FrameManager) (query_frame : string)
  (timestamp : Time) :
  getTransform fm query_frame timestamp = None
  \/ getTransform fm MAP_FRAME timestamp = None ->
  exists error, getMapTransform fm query_frame timestamp = inr error.
Proof.
  unfold getMapTransform. intros [Hq | Hm].
  - rewrite Hq. eauto.
  - destruct (getTransform fm query_frame timestamp) as [[t q] |];
      [rewrite Hm |]; eauto.
Qed.

Lemma getMapTransform_succeeds (fm : FrameManager) (query_frame : string)
  (timestamp : Time) (t_query_fixed t_map_fixed : Vector3)
  (o_query_fixed o_map_fixed : Quaternion) :
  getTransform fm query_frame timestamp = Some (t_query_fixed, o_query_fixed) ->
  getTransform fm MAP_FRAME timestamp = Some (t_map_fixed, o_map_fixed) ->
  getMapTransform fm query_frame timestamp =
  inl (vadd (qrot (qinverse o_map_fixed) t_query_fixed)
         (qrot (qinverse o_map_fixed) (vneg t_map_fixed)),
       qmul (qinverse o_map_fixed) o_query_fixed).
Proof.
  intros Hq Hm. unfold getMapTransform. rewrite Hq, Hm. reflexivity.
Qed.

(** The anchor as the code computes it: the translation plus the negated
    offset.  No law of the arithmetic is used. *)
Lemma transformTileToMapFrame_stores (fm : FrameManager) (d : Display)
  (ref_fix : NavSatFix) (t_navsat_map : Vector3) (o_navsat_map : Quaternion) :
  ref_fix_ d = Some ref_fix ->
  getMapTransform fm (frame_id ref_fix) (stamp ref_fix) =
    inl (t_navsat_map, o_navsat_map) ->
  transformTileToMapFrame fm d =
  with_t_centertile_map
    (vadd t_navsat_map (vneg (sub_tile_offset (getTileWH d) ref_fix (zoom_ d))))
    d.
Proof.
  intros Hfix Hmap. unfold transformTileToMapFrame.
  rewrite Hfix, Hmap. reflexivity.
Qed.

(** C1: for every fix and zoom, when the lookup of the vehicle frame in the
    map frame succeeds with translation [t], the anchor that
    [transformTileToMapFrame] stores is [t] minus the metric sub-tile offset
    [(frac(tileIndex.x) * edge, (1 - frac(tileIndex.y)) * edge, 0)], where
    [edge] is [getTileWH] at the latitude of the fix and the current zoom.
    The arithmetic is any in which adding the opposite is subtracting, as in
    IEEE arithmetic. *)
Theorem transformTileToMapFrame_anchor (fm : FrameManager) (d : Display)
  (ref_fix : NavSatFix) (t_navsat_map : Vector3) (o_navsat_map : Quaternion) :
  (forall a b : real, radd a (ropp b) = rsub a b) ->
  ref_fix_ d = Some ref_fix ->
  getMapTransform fm (frame_id ref_fix) (stamp ref_fix) =
    inl (t_navsat_map, o_navsat_map) ->
  t_centertile_map (transformTileToMapFrame fm d) =
  vsub t_navsat_map (sub_tile_offset (getTileWH d) ref_fix (zoom_ d)).
Proof.
  intros Hsub Hfix Hmap.
  rewrite (transformTileToMapFrame_stores fm d ref_fix _ _ Hfix Hmap).
  cbn. unfold vadd, vsub, vneg; cbn. rewrite !Hsub. reflexivity.
Qed.

(** C4: for every fix, when the lookup of the frame of the fix or of the map
    frame fails, [transformTileToMapFrame] reports an error status under
    "Transform" and returns: the stored anchor, and every member other than
    the status list, is as before. *)
Theorem transformTileToMapFrame_lookup_fails (fm : FrameManager)
  (d : Display) (ref_fix : NavSatFix) :
  ref_fix_ d = Some ref_fix ->
  getTransform fm (frame_id ref_fix) (stamp ref_fix) = None
  \/ getTransform fm MAP_FRAME (stamp ref_fix) = None ->
  exists error : string,
    transformTileToMapFrame fm d =
      setStatus StatusProperty.Error "Transform" error d
    /\ statuses (transformTileToMapFrame fm d) =
       mkStatus StatusProperty.Error "Transform" error :: statuses d
    /\ t_centertile_map (transformTileToMapFrame fm d) = t_centertile_map d.
Proof.
  intros Hfix Hfail.
  destruct (getMapTransform_fails fm _ _ Hfail) as [error Herr].
  exists error. unfold transformTileToMapFrame. rewrite Hfix, Herr.
  repeat split.
Qed.

(** ** The render tick *)

(** C2: for every stored anchor and every successful lookup of the map frame
    in the fixed frame, with translation [t] and rotation [q],
    [transformMapTileToFixedFrame] puts the scene at [t + q * anchor] with
    orientation [q] and leaves the anchor as it is.  Hence two lookups with
    the same translation and rotations [q1] and [q2] give the positions
    [t + q1 * anchor] and [t + q2 * anchor].  Their difference is
    [q1 * anchor - q2 * anchor] in an arithmetic where the common summand
    cancels, as on the exact numbers; in floating point each sum is rounded,
    and the difference need not be that one. *)
Theorem transformMapTileToFixedFrame_composition (fm1 fm2 : FrameManager)
  (d : Display) (t : Vector3) (q1 q2 : Quaternion) :
  getTransform fm1 MAP_FRAME Time0 = Some (t, q1) ->
  getTransform fm2 MAP_FRAME Time0 = Some (t, q2) ->
  let anchor := t_centertile_map d in
  let d1 := transformMapTileToFixedFrame fm1 d in
  let d2 := transformMapTileToFixedFrame fm2 d in
  scene_position d1 = vadd t (qrot q1 anchor)
  /\ scene_orientation d1 = q1
  /\ t_centertile_map d1 = anchor
  /\ scene_position d2 = vadd t (qrot q2 anchor)
  /\ scene_orientation d2 = q2
  /\ t_centertile_map d2 = anchor
  /\ ((forall a b c : real, rsub (radd a b) (radd a c) = rsub b c) ->
      vsub (scene_position d1) (scene_position d2) =
      vsub (qrot q1 anchor) (qrot q2 anchor)).
Proof.
  intros Hq1 Hq2 anchor d1 d2. subst d1 d2 anchor.
  unfold transformMapTileToFixedFrame. rewrite Hq1, Hq2. cbn.
  repeat split.
  intros Hcancel. unfold vsub, vadd; cbn. rewrite !Hcancel. reflexivity.
Qed.

(** When the lookup fails the tick reports an error and moves nothing. *)
Lemma transformMapTileToFixedFrame_lookup_fails (fm : FrameManager)
  (d : Display) :
  getTransform fm MAP_FRAME Time0 = None ->
  exists error : string,
    transformMapTileToFixedFrame fm d =
    setStatus StatusProperty.Error "Transform" error d.
Proof.
  intros Hfail. unfold transformMapTileToFixedFrame. rewrite Hfail.
  destruct (transformHasProblems fm MAP_FRAME Time0); eauto.
Qed.

(** ** Tile requests *)

(** A disabled display ignores the call altogether. *)
Lemma requestTileTextures_disabled (d : Display) :
  isEnabled d = false -> requestTileTextures d = d.
Proof. intros Hen. unfold requestTileTextures. rewrite Hen. reflexivity. Qed.

(** The three callers reach [requestTileTextures] on an enabled display
    only: on a disabled one they return before the call. *)
Lemma updateTileUrl_disabled (tile_url : string) (d : Display) :
  isEnabled d = false ->
  updateTileUrl tile_url d = d
  \/ updateTileUrl tile_url d = with_tile_url_ tile_url d.
Proof.
  intros Hen. unfold updateTileUrl.
  destruct (String.eqb tile_url (tile_url_ d)); [left; reflexivity |].
  cbn. rewrite Hen. right; reflexivity.
Qed.

Lemma updateBlocks_disabled (blocks : Z) (d : Display) :
  isEnabled d = false ->
  updateBlocks blocks d = d \/ updateBlocks blocks d = with_blocks_ blocks d.
Proof.
  intros Hen. unfold updateBlocks.
  destruct (blocks =? blocks_ d); [left; reflexivity |].
  cbn. rewrite Hen. right; reflexivity.
Qed.

Lemma updateCenterTile_disabled (fm : FrameManager) (msg : NavSatFix)
  (d : Display) :
  isEnabled d = false -> updateCenterTile fm msg d = d.
Proof. intros Hen. unfold updateCenterTile. rewrite Hen. reflexivity. Qed.

(** With a tile URL and a center tile, the request goes to the cache. *)
Lemma requestTileTextures_dispatches (d : Display) (c : TileId) :
  isEnabled d = true ->
  tile_url_ d <> "" ->
  lastCenterTile_ d = Some c ->
  cache_calls (requestTileTextures d) =
  Request (mkArea c (blocks_ d)) :: cache_calls d.
Proof.
  intros Hen Hurl Hc. unfold requestTileTextures. rewrite Hen, Hc. cbn.
  destruct (String.eqb (tile_url_ d) "") eqn:He.
  - apply String.eqb_eq in He. contradiction.
  - destruct (cache_request (tileCache_ d) (mkArea c (blocks_ d)))
      as [cache [what |]]; reflexivity.
Qed.

(** ** The center tile *)

(** C9: when the center TileIdentity that a fix derives (the source URL, the
    tile coordinates at the current zoom, the zoom) is the stored one,
    [updateCenterTile] returns the display as it was: the stored fix, the
    anchor, the cache and the calls made on it, and all else, wherever in the
    tile the fix lies. *)
Theorem updateCenterTile_same_tile (fm : FrameManager) (msg : NavSatFix)
  (d : Display) :
  lastCenterTile_ d = Some (derived_center_tile d msg) ->
  updateCenterTile fm msg d = d.
Proof.
  intros Hlast. unfold updateCenterTile.
  destruct (isEnabled d); [| reflexivity]. cbn.
  rewrite Hlast. fold (derived_center_tile d msg).
  rewrite TileId_eqb_refl. reflexivity.
Qed.

End Facts.

(** ** Scene assembly *)

Section SceneAssembly.
Context `{Scalar} `{!OgreMath} `{!Mercator} `{!TileCacheOps}.

Lemma assemble_slots_app (d : Display) (c : TileId)
  (slots1 slots2 : list (Z * Z)) (st : LoopState) :
  assemble_slots d c (slots1 ++ slots2) st =
  match assemble_slots d c slots1 st with
  | None => None
  | Some st' => assemble_slots d c slots2 st'
  end.
Proof.
  revert st. induction slots1 as [| slot slots1 IH]; intros st; cbn.
  - reflexivity.
  - destruct (assemble_tile d c (fst slot) (snd slot) st); auto.
Qed.

Lemma for_yy_slots (d : Display) (c : TileId) (xx : Z) (ys : list Z)
  (st : LoopState) :
  for_yy d c xx ys st = assemble_slots d c (map (fun yy => (xx, yy)) ys) st.
Proof.
  revert st. induction ys as [| yy ys IH]; intros st; cbn.
  - reflexivity.
  - destruct (assemble_tile d c xx yy st); auto.
Qed.

(** The two nested loops visit the slots of the area in order. *)
Lemma for_xx_slots (d : Display) (c : TileId) (xs ys : list Z)
  (st : LoopState) :
  for_xx d c xs ys st =
  assemble_slots d c
    (flat_map (fun xx => map (fun yy => (xx, yy)) ys) xs) st.
Proof.
  revert st. induction xs as [| xx xs IH]; intros st; cbn.
  - reflexivity.
  - rewrite assemble_slots_app, for_yy_slots.
    destruct (assemble_slots d c (map (fun yy => (xx, yy)) ys) st); auto.
Qed.

(** One round: the object under the iterator is settled, the iterator moves
    on, and [loadedAllTiles] falls when the tile is not ready. *)
Lemma assemble_tile_round (d : Display) (c : TileId) (ref_fix : NavSatFix)
  (slot : Z * Z) (st : LoopState) (o : MapObject) :
  ref_fix_ d = Some ref_fix ->
  ls_objects st !! ls_it st = Some o ->
  assemble_tile d c (fst slot) (snd slot) st =
  Some (mkLoopState
          (<[ls_it st := settled d c ref_fix slot o]> (ls_objects st))
          (S (ls_it st))
          (loadedAllTiles st && slot_ready d c slot)).
Proof.
  intros Hfix Ho. unfold assemble_tile, settled, slot_ready, slot_tile.
  rewrite Ho, Hfix.
  destruct (cache_ready (tileCache_ d)
              (mkTileId (tileServer c) (mkTileCoordinate (fst slot) (snd slot))
                 (zoom c))).
  - rewrite andb_true_r. reflexivity.
  - rewrite andb_false_r. reflexivity.
Qed.

(** The loop over the slots, started with the iterator at [ls_it st] and an
    object for every slot ahead: it ends, the objects of the slots are
    settled in order, and all other objects are as before. *)
Lemma assemble_slots_run (d : Display) (c : TileId) (ref_fix : NavSatFix)
  (slots : list (Z * Z)) :
  ref_fix_ d = Some ref_fix ->
  forall st : LoopState,
    (ls_it st + length slots <= length (ls_objects st))%nat ->
    exists st' : LoopState,
      assemble_slots d c slots st = Some st'
      /\ length (ls_objects st') = length (ls_objects st)
      /\ loadedAllTiles st' =
         loadedAllTiles st && forallb (slot_ready d c) slots
      /\ (forall (j : nat) (slot : Z * Z),
             slots !! j = Some slot ->
             exists o : MapObject,
               ls_objects st !! (ls_it st + j)%nat = Some o
               /\ ls_objects st' !! (ls_it st + j)%nat =
                  Some (settled d c ref_fix slot o))
      /\ (forall k : nat,
             (k < ls_it st \/ ls_it st + length slots <= k)%nat ->
             ls_objects st' !! k = ls_objects st !! k).
Proof.
  intros Hfix. induction slots as [| slot slots IH]; intros st Hlen.
  - exists st. cbn. rewrite andb_true_r.
    repeat split; auto. intros j s Hj. discriminate.
  - cbn [length] in Hlen.
    destruct (lookup_lt_is_Some_2 (ls_objects st) (ls_it st)) as [o Ho];
      [lia |].
    cbn [assemble_slots].
    rewrite (assemble_tile_round d c ref_fix slot st o Hfix Ho).
    set (st1 := mkLoopState _ _ _).
    destruct (IH st1) as (st' & Hrun & Hlen' & Hloaded & Hslots & Hframe).
    { subst st1; cbn. rewrite length_insert. lia. }
    exists st'. subst st1; cbn in *.
    rewrite length_insert in *.
    split; [exact Hrun |]. split; [exact Hlen' |].
    split; [rewrite Hloaded, andb_assoc; reflexivity |].
    split.
    + intros [| j] s Hj.
      * cbn in Hj. injection Hj as <-.
        exists o. rewrite Nat.add_0_r. split; [exact Ho |].
        rewrite Hframe by lia.
        apply list_lookup_insert_eq. lia.
      * cbn in Hj. destruct (Hslots j s Hj) as (o' & Ho' & Hset).
        exists o'.
        replace (ls_it st + S j)%nat with (S (ls_it st) + j)%nat by lia.
        split; [| exact Hset].
        rewrite list_lookup_insert_ne in Ho' by lia. exact Ho'.
    + intros k Hk. rewrite Hframe by lia.
      apply list_lookup_insert_ne. lia.
Qed.

(** [checkRequestErrorRate] reports one status and touches nothing else. *)
Lemma checkRequestErrorRate_sets (d : Display) :
  exists (level : StatusProperty.Level) (name text : string),
    checkRequestErrorRate d = setStatus level name text d.
Proof.
  unfold checkRequestErrorRate.
  repeat match goal with
         | |- context [if ?b then _ else _] => destruct b
         end; eauto.
Qed.

(** A completed pass, member by member. *)
Lemma assembleScene_pass (d : Display) (c : TileId) (ref_fix : NavSatFix) :
  pass_runs d c ref_fix ->
  dirty_ d = true ->
  let slots := area_slots (mkArea c (blocks_ d)) in
  exists d' : Display,
    assembleScene d = Some d'
    /\ dirty_ d' = negb (forallb (slot_ready d c) slots)
    /\ length (objects_ d') = length (objects_ d)
    /\ (forall (k : nat) (slot : Z * Z),
           slots !! k = Some slot ->
           exists o : MapObject,
             objects_ d !! k = Some o
             /\ objects_ d' !! k = Some (settled d c ref_fix slot o))
    /\ (forall k : nat,
           (length slots <= k)%nat -> objects_ d' !! k = objects_ d !! k)
    /\ isEnabled d' = true
    /\ lastCenterTile_ d' = Some c
    /\ ref_fix_ d' = Some ref_fix
    /\ blocks_ d' = blocks_ d
    /\ cache_calls d' = Purge (mkArea c (blocks_ d)) :: cache_calls d.
Proof.
  intros (Hen & Hc & Hfix & Hobjs & Hlen) Hdirty slots.
  unfold assembleScene. rewrite Hen, Hdirty, Hc. cbn [negb orb].
  destruct (objects_ d) as [| o0 objs] eqn:Hos; [contradiction |].
  rewrite for_xx_slots. cbn [blocks_ with_dirty_ objects_].
  fold (area_slots (mkArea c (blocks_ d))). fold slots.
  rewrite Hos.
  destruct (assemble_slots_run (with_dirty_ false d) c ref_fix slots Hfix
              (mkLoopState (o0 :: objs) 0 true))
    as (st & Hrun & Hlen' & Hloaded & Hslots & Hframe).
  { cbn. exact Hlen. }
  rewrite Hrun. cbn in Hloaded, Hslots, Hframe, Hlen'.
  change (slot_ready (with_dirty_ false d) c) with (slot_ready d c) in Hloaded.
  change (settled (with_dirty_ false d)) with (settled d) in Hslots.
  match goal with
  | |- context [checkRequestErrorRate ?x] =>
      destruct (checkRequestErrorRate_sets x) as (lv & nm & txt & ->)
  end.
  eexists. split; [reflexivity |].
  split; [rewrite <- Hloaded; destruct (loadedAllTiles st); reflexivity |].
  destruct (loadedAllTiles st); cbn;
    (split; [exact Hlen' |]);
    (split; [exact Hslots |]);
    (split; [intros k Hk; apply Hframe; right; exact Hk |]);
    repeat split; assumption.
Qed.

(** A list on which a test fails somewhere has an element that fails it. *)
Lemma forallb_exists_false {A : Type} (l : list A) (f : A -> bool) :
  forallb f l = false -> exists x : A, In x l /\ f x = false.
Proof.
  induction l as [| a l IH]; cbn; [discriminate |].
  destruct (f a) eqn:Hfa; cbn.
  - intros Hl. destruct (IH Hl) as (x & Hin & Hx). eauto.
  - intros _. eauto.
Qed.

(** A display that is not dirty is left alone. *)
Lemma assembleScene_clean (d : Display) :
  dirty_ d = false -> assembleScene d = Some d.
Proof.
  intros Hclean. unfold assembleScene. rewrite Hclean, orb_true_r. reflexivity.
Qed.

(** ** The slots of an area are the tiles of its rectangle *)

Lemma pairs_lookup (xs ys : list Z) (i j : nat) (xx yy : Z) :
  xs !! i = Some xx ->
  ys !! j = Some yy ->
  flat_map (fun x => map (fun y => (x, y)) ys) xs !! (i * length ys + j)%nat =
  Some (xx, yy).
Proof.
  revert i. induction xs as [| x xs IH]; intros i Hx Hy.
  - destruct i; discriminate.
  - destruct i as [| i]; cbn [flat_map].
    + cbn in Hx. injection Hx as ->. cbn [Nat.mul Nat.add].
      rewrite lookup_app_l
        by (rewrite length_map; apply lookup_lt_Some in Hy; exact Hy).
      change (map (fun y => (xx, y)) ys) with ((fun y => (xx, y)) <$> ys).
      rewrite list_lookup_fmap, Hy. reflexivity.
    + cbn in Hx.
      rewrite lookup_app_r by (rewrite length_map; cbn; lia).
      rewrite length_map.
      replace (S i * length ys + j - length ys)%nat
        with (i * length ys + j)%nat by (cbn; lia).
      apply IH; assumption.
Qed.

(** A tile of the rectangle is a slot, at the index of its object. *)
Lemma area_slots_lookup (area : Area) (xx yy : Z) :
  in_rectangle area xx yy ->
  area_slots area !! slot_index area xx yy = Some (xx, yy).
Proof.
  intros [Hx Hy]. unfold area_slots, slot_index, int_range.
  set (h := ty (rightBottom area) + 1 - ty (leftTop area)).
  set (w := tx (rightBottom area) + 1 - tx (leftTop area)).
  replace (Z.to_nat ((xx - tx (leftTop area)) * h + (yy - ty (leftTop area))))
    with (Z.to_nat (xx - tx (leftTop area))
          * length (seqZ (ty (leftTop area)) h)
          + Z.to_nat (yy - ty (leftTop area)))%nat
    by (rewrite length_seqZ; subst h; nia).
  apply pairs_lookup.
  - rewrite lookup_seqZ_lt by (subst w; lia). f_equal. lia.
  - rewrite lookup_seqZ_lt by (subst h; lia). f_equal. lia.
Qed.

(** The slots are exactly the tiles of the rectangle. *)
Lemma area_slots_In (area : Area) (xx yy : Z) :
  In (xx, yy) (area_slots area) <-> in_rectangle area xx yy.
Proof.
  unfold area_slots, in_rectangle, int_range.
  rewrite in_flat_map. split.
  - intros (x & Hx & Hin). apply in_map_iff in Hin.
    destruct Hin as (y & [= -> ->] & Hy).
    apply list_elem_of_In, elem_of_seqZ in Hx.
    apply list_elem_of_In, elem_of_seqZ in Hy. lia.
  - intros [Hx Hy]. exists xx. split.
    + apply list_elem_of_In, elem_of_seqZ. lia.
    + apply in_map_iff. exists yy. split; [reflexivity |].
      apply list_elem_of_In, elem_of_seqZ. lia.
Qed.

(** Two tiles of the rectangle are drawn on two objects. *)
Lemma slot_index_inj (area : Area) (xx yy xx' yy' : Z) :
  in_rectangle area xx yy ->
  in_rectangle area xx' yy' ->
  slot_index area xx yy = slot_index area xx' yy' ->
  xx = xx' /\ yy = yy'.
Proof.
  intros Hin Hin' Heq.
  pose proof (area_slots_lookup area xx yy Hin) as Hl.
  pose proof (area_slots_lookup area xx' yy' Hin') as Hl'.
  rewrite Heq, Hl' in Hl. injection Hl as -> ->. auto.
Qed.

(** C6: a pass of [assembleScene] over the area of the center tile settles
    the object of every tile of the rectangle of the area, from [leftTop] to
    [rightBottom]: the tile (xx, yy) has the object at its place in the order
    of the loops, two tiles have two objects, and the object keeps its name.
    When the cache does not have the tile ready, its object is invisible, so
    that whatever texture it was given before is not shown; when the cache
    has it ready, the object is visible and carries the texture of that
    tile. *)
Theorem assembleScene_visibility (d : Display) (c : TileId)
  (ref_fix : NavSatFix) :
  pass_runs d c ref_fix ->
  dirty_ d = true ->
  let area := mkArea c (blocks_ d) in
  exists d' : Display,
    assembleScene d = Some d'
    /\ (forall xx yy : Z,
           in_rectangle area xx yy ->
           exists o o' : MapObject,
             objects_ d !! slot_index area xx yy = Some o
             /\ objects_ d' !! slot_index area xx yy = Some o'
             /\ name_suffix o' = name_suffix o
             /\ match cache_ready (tileCache_ d)
                        (mkTileId (tileServer c) (mkTileCoordinate xx yy)
                           (zoom c)) with
                | None => visible o' = false
                | Some tile =>
                    visible o' = true
                    /\ texture o' = Some (texture_name tile)
                end)
    /\ (forall xx yy xx' yy' : Z,
           in_rectangle area xx yy ->
           in_rectangle area xx' yy' ->
           slot_index area xx yy = slot_index area xx' yy' ->
           xx = xx' /\ yy = yy').
Proof.
  intros Hruns Hdirty area.
  destruct (assembleScene_pass d c ref_fix Hruns Hdirty)
    as (d' & Hpass & _ & _ & Hslots & _).
  exists d'. split; [exact Hpass |].
  split; [| apply slot_index_inj].
  intros xx yy Hin.
  destruct (Hslots _ _ (area_slots_lookup area xx yy Hin)) as (o & Ho & Ho').
  exists o. eexists. split; [exact Ho |]. split; [exact Ho' |].
  unfold settled, slot_tile. cbn [fst snd].
  destruct (cache_ready (tileCache_ d)
              (mkTileId (tileServer c) (mkTileCoordinate xx yy) (zoom c)));
    cbn; auto.
Qed.

(** C10: a pass of [assembleScene] that runs its loops ends with the dirty
    flag set exactly when the cache did not have some tile of the rectangle
    of the area ready, and so with the flag clear exactly when it had every
    tile from [leftTop] to [rightBottom] ready.  With the flag clear the next
    call is skipped; with the flag set the next call is again a pass that
    runs. *)
Theorem assembleScene_dirty (d : Display) (c : TileId) (ref_fix : NavSatFix) :
  pass_runs d c ref_fix ->
  dirty_ d = true ->
  let area := mkArea c (blocks_ d) in
  let ready xx yy :=
    cache_ready (tileCache_ d)
      (mkTileId (tileServer c) (mkTileCoordinate xx yy) (zoom c)) in
  exists d' : Display,
    assembleScene d = Some d'
    /\ (dirty_ d' = true <->
        exists xx yy : Z, in_rectangle area xx yy /\ ready xx yy = None)
    /\ (dirty_ d' = false <->
        forall xx yy : Z, in_rectangle area xx yy -> is_Some (ready xx yy))
    /\ (dirty_ d' = false -> assembleScene d' = Some d')
    /\ (dirty_ d' = true -> pass_runs d' c ref_fix).
Proof.
  intros Hruns Hdirty area ready.
  destruct (assembleScene_pass d c ref_fix Hruns Hdirty)
    as (d' & Hpass & Hflag & Hlen & _ & _ & Hen & Hc & Hfix & Hblocks & _).
  fold area in Hflag.
  assert (Hready : forall xx yy : Z,
             slot_ready d c (xx, yy) = true <-> is_Some (ready xx yy)).
  { intros xx yy. unfold slot_ready, slot_tile, ready. cbn [fst snd].
    destruct (cache_ready (tileCache_ d)
                (mkTileId (tileServer c) (mkTileCoordinate xx yy) (zoom c)));
      split; intros Hr; try reflexivity; try discriminate; eauto.
    destruct Hr as [x Hx]. discriminate. }
  assert (Hall : dirty_ d' = false <->
                 forall xx yy : Z,
                   in_rectangle area xx yy -> is_Some (ready xx yy)).
  { rewrite Hflag, negb_false_iff, forallb_forall. split.
    - intros Hin xx yy Hrect. apply Hready, Hin, area_slots_In. exact Hrect.
    - intros Hrect [xx yy] Hin. apply Hready, Hrect, area_slots_In.
      exact Hin. }
  exists d'. split; [exact Hpass |].
  split; [| split; [exact Hall | split]].
  - split.
    + intros Hset. rewrite Hflag, negb_true_iff in Hset.
      destruct (forallb_exists_false _ _ Hset) as ([xx yy] & Hin & Hnot).
      exists xx, yy. split; [apply area_slots_In; exact Hin |].
      destruct (ready xx yy) eqn:Hr; [| reflexivity].
      assert (Hs : slot_ready d c (xx, yy) = true)
        by (apply Hready; rewrite Hr; eauto).
      rewrite Hs in Hnot. discriminate.
    + intros (xx & yy & Hrect & Hnone).
      destruct (dirty_ d') eqn:Hd; [reflexivity |].
      destruct Hall as [Hall _]. destruct (Hall eq_refl xx yy Hrect) as [x Hx].
      rewrite Hx in Hnone. discriminate.
  - apply assembleScene_clean.
  - intros _. destruct Hruns as (_ & _ & _ & Hobjs & Hslots).
    unfold pass_runs. rewrite Hblocks, Hlen.
    repeat split; auto.
    intros Hnil. apply Hobjs. apply length_zero_iff_nil.
    rewrite <- Hlen, Hnil. reflexivity.
Qed.

End SceneAssembly.

(** ** The states that the display reaches are consistent *)

Section Reachable.
Context `{Scalar} `{!OgreMath} `{!Mercator} `{!TileCacheOps}.

Lemma consistent_core (d d' : Display) :
  core d' = core d -> consistent d -> consistent d'.
Proof.
  unfold core, consistent. intros [= -> -> -> ->]. auto.
Qed.

Lemma create_loop_core (rounds : nat) (d : Display) :
  core (create_loop rounds d) = core d.
Proof.
  revert d. induction rounds as [| rounds IH]; intros d; cbn.
  - reflexivity.
  - rewrite IH. reflexivity.
Qed.

Lemma createTileObjects_core (d : Display) :
  core (createTileObjects d) = core d.
Proof.
  unfold createTileObjects. rewrite create_loop_core.
  destruct (objects_ d); reflexivity.
Qed.

Lemma requestTileTextures_core (d : Display) :
  core (requestTileTextures d) = core d.
Proof.
  unfold requestTileTextures.
  destruct (negb (isEnabled d)); [reflexivity |].
  destruct (String.eqb (tile_url_ d) ""); [reflexivity |].
  destruct (lastCenterTile_ d) as [c |] eqn:Hc; [| unfold core; cbn; congruence].
  destruct (cache_request (tileCache_ d) (mkArea c (blocks_ d)))
    as [cache [what |]]; unfold core; cbn; congruence.
Qed.

Lemma transformTileToMapFrame_core (fm : FrameManager) (d : Display) :
  core (transformTileToMapFrame fm d) = core d.
Proof.
  unfold transformTileToMapFrame.
  destruct (ref_fix_ d) as [ref_fix |] eqn:Hfix; [| reflexivity].
  destruct (getMapTransform fm (frame_id ref_fix) (stamp ref_fix))
    as [[t q] | error]; unfold core; cbn; congruence.
Qed.

Lemma transformMapTileToFixedFrame_core (fm : FrameManager) (d : Display) :
  core (transformMapTileToFixedFrame fm d) = core d.
Proof.
  unfold transformMapTileToFixedFrame.
  destruct (getTransform fm MAP_FRAME Time0) as [[t q] |]; [reflexivity |].
  destruct (transformHasProblems fm MAP_FRAME Time0); reflexivity.
Qed.

Lemma assembleScene_core (d d' : Display) :
  assembleScene d = Some d' -> core d' = core d.
Proof.
  unfold assembleScene.
  destruct (negb (isEnabled d) || negb (dirty_ d)); [congruence |].
  destruct (lastCenterTile_ d) as [c |] eqn:Hc; [| congruence].
  destruct (objects_ d); [congruence |].
  match goal with
  | |- context [for_xx ?a ?b ?xs ?ys ?st] =>
      destruct (for_xx a b xs ys st) as [st' |]; [| discriminate]
  end.
  match goal with
  | |- context [checkRequestErrorRate ?x] =>
      destruct (checkRequestErrorRate_sets x) as (lv & nm & txt & ->)
  end.
  intros [= <-]. unfold core.
  destruct (loadedAllTiles st'); cbn; congruence.
Qed.

Lemma update_core (fm : FrameManager) (d d' : Display) :
  update fm d = Some d' -> core d' = core d.
Proof.
  unfold update.
  destruct (ref_fix_ d); [| congruence].
  destruct (lastCenterTile_ d); [| congruence].
  destruct (assembleScene d) as [d1 |] eqn:Hpass; [| discriminate].
  intros [= <-]. rewrite transformMapTileToFixedFrame_core.
  apply assembleScene_core. exact Hpass.
Qed.

Lemma subscribe_core (topic : string) (failure : option string)
  (d : Display) :
  core (subscribe topic failure d) = core d.
Proof.
  unfold subscribe.
  destruct (negb (isEnabled d)); [reflexivity |].
  destruct (String.eqb topic ""); [reflexivity |].
  destruct failure; reflexivity.
Qed.

(** The center tile after [updateCenterTile] carries the zoom of the
    display, also when the display arrives with a new zoom. *)
Lemma updateCenterTile_consistent (fm : FrameManager) (msg : NavSatFix)
  (d : Display) :
  (ref_fix_ d = None <-> lastCenterTile_ d = None) ->
  (isEnabled d = false -> lastCenterTile_ d = None) ->
  consistent (updateCenterTile fm msg d).
Proof.
  intros Hboth Hoff. unfold updateCenterTile.
  destruct (isEnabled d) eqn:Hen; cbn [negb].
  - destruct (lastCenterTile_ d) as [last |] eqn:Hlast.
    + destruct (TileId_eqb
                  (mkTileId (tile_url_ d)
                     (fromWGSCoordinate
                        (mkWGS (latitude msg) (longitude msg)) (zoom_ d))
                     (zoom_ d)) last) eqn:Hsame; cbn [negb].
      * apply TileId_eqb_eq in Hsame. subst last.
        unfold consistent. rewrite Hlast, Hen.
        repeat split; try tauto; try discriminate.
        intros c [= <-]. reflexivity.
      * eapply consistent_core.
        { rewrite transformTileToMapFrame_core, requestTileTextures_core.
          reflexivity. }
        unfold consistent; cbn. rewrite Hen.
        repeat split; try discriminate. intros c [= <-]. reflexivity.
    + cbn [negb].
      eapply consistent_core.
      { rewrite transformTileToMapFrame_core, requestTileTextures_core.
        reflexivity. }
      unfold consistent; cbn. rewrite Hen.
      repeat split; try discriminate. intros c [= <-]. reflexivity.
  - unfold consistent. rewrite Hen, (Hoff eq_refl).
    repeat split; try tauto; try discriminate.
Qed.

Lemma clearAll_consistent (d : Display) : consistent (clearAll d).
Proof.
  unfold consistent, clearAll; cbn.
  repeat split; auto; discriminate.
Qed.

Lemma step_consistent (d d' : Display) :
  step d d' -> consistent d -> consistent d'.
Proof.
  intros Hstep Hd. pose proof Hd as (Hzoom & Hboth & Hoff).
  destruct Hstep
    as [topic failure d | d | topic failure d | alpha d | draw_under d
       | tile_url d | fm z d | blocks d | fm msg d | fm d d' Hupdate].
  - (* enable: a disabled display has no center tile *)
    unfold onEnable.
    eapply consistent_core;
      [rewrite subscribe_core, createTileObjects_core; reflexivity |].
    unfold consistent; cbn. intuition discriminate.
  - unfold onDisable. apply clearAll_consistent.
  - unfold updateTopic. destruct (negb (isEnabled d)); [exact Hd |].
    eapply consistent_core;
      [rewrite subscribe_core, createTileObjects_core; reflexivity |].
    apply clearAll_consistent.
  - unfold updateAlpha. destruct (req_b alpha (alpha_ d)); [exact Hd |].
    cbn. destruct (negb (isEnabled d)); exact Hd.
  - unfold updateDrawUnder.
    destruct (Bool.eqb draw_under (draw_under_ d)); [exact Hd |].
    cbn. destruct (negb (isEnabled d)); exact Hd.
  - unfold updateTileUrl.
    destruct (String.eqb tile_url (tile_url_ d)); [exact Hd |].
    cbn. destruct (negb (isEnabled d)); [exact Hd |].
    eapply consistent_core; [apply requestTileTextures_core | exact Hd].
  - unfold updateZoom. destruct (z =? zoom_ d); [exact Hd |].
    cbn [isEnabled with_zoom_].
    destruct (isEnabled d) eqn:Hen; cbn [negb].
    + pose proof (createTileObjects_core (with_zoom_ z d)) as Hcore.
      unfold core in Hcore. cbn in Hcore.
      injection Hcore as Hen' Hzoom' Hfix' Hlast'.
      rewrite Hfix'.
      destruct (ref_fix_ d) as [ref_fix |] eqn:Hfix.
      * apply updateCenterTile_consistent.
        -- rewrite Hfix', Hlast'. exact Hboth.
        -- rewrite Hen', Hen. discriminate.
      * unfold consistent. rewrite Hen', Hzoom', Hfix', Hlast'.
        destruct Hboth as [Hnone _]. rewrite (Hnone eq_refl).
        repeat split; auto; discriminate.
    + specialize (Hoff eq_refl).
      unfold consistent; cbn. rewrite Hen, Hoff. rewrite Hoff in Hboth.
      repeat split; try tauto; discriminate.
  - unfold updateBlocks. destruct (blocks =? blocks_ d); [exact Hd |].
    cbn. destruct (negb (isEnabled d)); [exact Hd |].
    eapply consistent_core;
      [rewrite requestTileTextures_core, createTileObjects_core; reflexivity |].
    exact Hd.
  - unfold navFixCallback.
    eapply consistent_core with (d := updateCenterTile fm msg d);
      [reflexivity |].
    apply updateCenterTile_consistent; assumption.
  - eapply consistent_core; [eapply update_core; eassumption | exact Hd].
Qed.

(** Every state that the display reaches is consistent. *)
Lemma reachable_consistent (d : Display) : reachable d -> consistent d.
Proof.
  induction 1 as [frame cache anchor position orientation | d d' _ IH Hstep].
  - unfold consistent; cbn. repeat split; auto; discriminate.
  - eapply step_consistent; eassumption.
Qed.

End Reachable.

(** ** Property changes *)

Section PropertyChanges.
Context `{Scalar} `{!OgreMath} `{!Mercator} `{!TileCacheOps}.

(** The loop of [createTileObjects] appends fresh invisible objects, named
    by the successive values of the counter. *)
Lemma create_loop_objects (rounds : nat) (d : Display) :
  objects_ (create_loop rounds d) =
    objects_ d ++ map new_object (seqZ (count d) (Z.of_nat rounds))
  /\ count (create_loop rounds d) = count d + Z.of_nat rounds.
Proof.
  revert d. induction rounds as [| rounds IH]; intros d.
  - cbn. rewrite app_nil_r. split; [reflexivity | lia].
  - cbn [create_loop].
    destruct (IH (with_objects_
                    (objects_ (with_count (count d + 1) d)
                       ++ [new_object (count d)])
                    (with_count (count d + 1) d))) as [Hobjs Hcount].
    rewrite Hobjs, Hcount. cbn [objects_ count with_objects_ with_count].
    rewrite (seqZ_cons (count d) (Z.of_nat (S rounds))) by lia.
    replace (Z.pred (Z.of_nat (S rounds))) with (Z.of_nat rounds) by lia.
    replace (Z.succ (count d)) with (count d + 1) by lia.
    cbn [map]. rewrite <- app_assoc. cbn [app].
    split; [reflexivity | lia].
Qed.

(** [createTileObjects] discards the objects and makes (2 blocks + 1)^2 new
    ones. *)
Lemma createTileObjects_objects (d : Display) :
  objects_ (createTileObjects d) =
  map new_object
    (seqZ (count d) ((2 * blocks_ d + 1) * (2 * blocks_ d + 1))).
Proof.
  unfold createTileObjects.
  match goal with
  | |- context [create_loop ?n ?x] =>
      destruct (create_loop_objects n x) as [-> _]
  end.
  assert (Hsq : 0 <= (2 * blocks_ d + 1) * (2 * blocks_ d + 1)) by nia.
  destruct (objects_ d) eqn:Hobjs; cbn [objects_ count destroyTileObjects
    with_objects_]; rewrite ?Hobjs, Z2Nat.id by exact Hsq; reflexivity.
Qed.

Lemma requestTileTextures_objects (d : Display) :
  objects_ (requestTileTextures d) = objects_ d.
Proof.
  unfold requestTileTextures.
  destruct (negb (isEnabled d)); [reflexivity |].
  destruct (String.eqb (tile_url_ d) ""); [reflexivity |].
  destruct (lastCenterTile_ d) as [c |]; [| reflexivity].
  destruct (cache_request (tileCache_ d) (mkArea c (blocks_ d)))
    as [cache [what |]]; reflexivity.
Qed.

Lemma transformTileToMapFrame_objects (fm : FrameManager) (d : Display) :
  objects_ (transformTileToMapFrame fm d) = objects_ d.
Proof.
  unfold transformTileToMapFrame.
  destruct (ref_fix_ d) as [ref_fix |]; [| reflexivity].
  destruct (getMapTransform fm (frame_id ref_fix) (stamp ref_fix))
    as [[t q] | error]; reflexivity.
Qed.

Lemma create_loop_settings (rounds : nat) (d : Display) :
  tile_url_ (create_loop rounds d) = tile_url_ d
  /\ blocks_ (create_loop rounds d) = blocks_ d
  /\ cache_calls (create_loop rounds d) = cache_calls d.
Proof.
  revert d. induction rounds as [| rounds IH]; intros d; cbn [create_loop].
  - auto.
  - match goal with
    | |- context [create_loop rounds ?x] =>
        destruct (IH x) as (-> & -> & ->)
    end.
    auto.
Qed.

Lemma createTileObjects_settings (d : Display) :
  tile_url_ (createTileObjects d) = tile_url_ d
  /\ blocks_ (createTileObjects d) = blocks_ d
  /\ cache_calls (createTileObjects d) = cache_calls d.
Proof.
  unfold createTileObjects.
  match goal with
  | |- context [create_loop ?n ?x] =>
      destruct (create_loop_settings n x) as (-> & -> & ->)
  end.
  destruct (objects_ d); auto.
Qed.

Lemma transformTileToMapFrame_cache_calls (fm : FrameManager) (d : Display) :
  cache_calls (transformTileToMapFrame fm d) = cache_calls d.
Proof.
  unfold transformTileToMapFrame.
  destruct (ref_fix_ d) as [ref_fix |]; [| reflexivity].
  destruct (getMapTransform fm (frame_id ref_fix) (stamp ref_fix))
    as [[t q] | error]; reflexivity.
Qed.

(** An opacity change touches [alpha_] and [dirty_] only. *)
Lemma updateAlpha_frame (alpha : real) (d : Display) :
  same_but_alpha_and_dirty d (updateAlpha alpha d).
Proof.
  unfold updateAlpha, same_but_alpha_and_dirty.
  destruct (req_b alpha (alpha_ d)); [repeat split |].
  cbn. destruct (negb (isEnabled d)); cbn; repeat split.
Qed.

(** A zoom change on a disabled display only stores the zoom. *)
Lemma updateZoom_disabled (fm : FrameManager) (z : Z) (d : Display) :
  isEnabled d = false ->
  updateZoom fm z d = d \/ updateZoom fm z d = with_zoom_ z d.
Proof.
  intros Hen. unfold updateZoom.
  destruct (z =? zoom_ d); [left; reflexivity |].
  cbn. rewrite Hen. right; reflexivity.
Qed.

(** A zoom change without a fix re-creates the objects and stops there. *)
Lemma updateZoom_without_fix (fm : FrameManager) (z : Z) (d : Display) :
  isEnabled d = true ->
  z <> zoom_ d ->
  ref_fix_ d = None ->
  updateZoom fm z d = createTileObjects (with_zoom_ z d).
Proof.
  intros Hen Hz Hfix. unfold updateZoom.
  apply Z.eqb_neq in Hz. rewrite Hz. cbn [isEnabled with_zoom_].
  rewrite Hen. cbn [negb].
  pose proof (createTileObjects_core (with_zoom_ z d)) as Hcore.
  unfold core in Hcore. cbn in Hcore. injection Hcore as _ _ Hfix' _.
  rewrite Hfix', Hfix. reflexivity.
Qed.

(** A zoom change with a fix, on a consistent display. *)
Lemma updateZoom_with_fix (fm : FrameManager) (z : Z) (d : Display)
  (ref_fix : NavSatFix) :
  consistent d ->
  isEnabled d = true ->
  z <> zoom_ d ->
  ref_fix_ d = Some ref_fix ->
  let d1 := createTileObjects (with_zoom_ z d) in
  let d2 :=
    with_ref_fix_ (Some ref_fix)
      (with_lastCenterTile_ (Some (derived_center_tile d1 ref_fix)) d1) in
  updateZoom fm z d = transformTileToMapFrame fm (requestTileTextures d2)
  /\ zoom_ d1 = z.
Proof.
  intros (Hzoom & Hboth & _) Hen Hz Hfix d1 d2.
  pose proof (createTileObjects_core (with_zoom_ z d)) as Hcore.
  unfold core in Hcore. cbn in Hcore.
  injection Hcore as Hen' Hzoom' Hfix' Hlast'. fold d1 in Hen', Hzoom', Hfix', Hlast'.
  split; [| exact Hzoom'].
  unfold updateZoom.
  pose proof Hz as Hzb. apply Z.eqb_neq in Hzb. rewrite Hzb.
  cbn [isEnabled with_zoom_]. rewrite Hen. cbn [negb]. fold d1.
  rewrite Hfix', Hfix.
  unfold updateCenterTile. rewrite Hen', Hen. cbn [negb].
  fold (derived_center_tile d1 ref_fix).
  rewrite Hlast'.
  destruct (lastCenterTile_ d) as [last |] eqn:Hlast.
  - destruct (TileId_eqb (derived_center_tile d1 ref_fix) last) eqn:Hsame.
    + apply TileId_eqb_eq in Hsame. exfalso. apply Hz.
      rewrite <- (Hzoom last eq_refl), <- Hsame. cbn. symmetry. exact Hzoom'.
    + reflexivity.
  - destruct Hboth as [_ Hnone]. rewrite Hfix in Hnone.
    specialize (Hnone eq_refl). discriminate.
Qed.

(** The effects of a zoom change on an enabled, reachable display that
    holds a fix. *)
Lemma updateZoom_effects_with_fix (fm : FrameManager) (z : Z)
  (d : Display) (ref_fix : NavSatFix) :
  reachable d ->
  isEnabled d = true ->
  z <> zoom_ d ->
  ref_fix_ d = Some ref_fix ->
  let d1 := createTileObjects (with_zoom_ z d) in
  let center := derived_center_tile d1 ref_fix in
  let d2 := with_ref_fix_ (Some ref_fix)
              (with_lastCenterTile_ (Some center) d1) in
  updateZoom fm z d = transformTileToMapFrame fm (requestTileTextures d2)
  /\ zoom_ (updateZoom fm z d) = z
  /\ objects_ (updateZoom fm z d) =
     map new_object
       (seqZ (count d) ((2 * blocks_ d + 1) * (2 * blocks_ d + 1)))
  /\ lastCenterTile_ (updateZoom fm z d) = Some center
  /\ zoom center = z
  /\ (tile_url_ d <> "" ->
      cache_calls (updateZoom fm z d) =
      Request (mkArea center (blocks_ d)) :: cache_calls d)
  /\ (forall (t : Vector3) (q : Quaternion),
        getMapTransform fm (frame_id ref_fix) (stamp ref_fix) = inl (t, q) ->
        t_centertile_map (updateZoom fm z d) =
        vadd t (vneg (sub_tile_offset (getTileWH d) ref_fix z))).
Proof.
  intros Hreach Hen Hz Hfix d1 center d2.
  destruct (updateZoom_with_fix fm z d ref_fix
              (reachable_consistent d Hreach) Hen Hz Hfix) as [Heq Hzoom1].
  fold d1 in Heq, Hzoom1. fold center in Heq. fold d2 in Heq.
  pose proof (createTileObjects_core (with_zoom_ z d)) as Hcore.
  unfold core in Hcore. cbn in Hcore.
  injection Hcore as Hen1 _ _ _. fold d1 in Hen1.
  assert (Hcore2 : core (transformTileToMapFrame fm (requestTileTextures d2))
                   = (true, z, Some ref_fix, Some center)).
  { rewrite transformTileToMapFrame_core, requestTileTextures_core.
    unfold core, d2; cbn. rewrite Hen1, Hen, Hzoom1. reflexivity. }
  unfold core in Hcore2. injection Hcore2 as _ Hz2 Hfix2 Hc2.
  split; [exact Heq |]. rewrite Heq.
  split; [exact Hz2 |].
  split.
  { rewrite transformTileToMapFrame_objects, requestTileTextures_objects.
    unfold d2; cbn. unfold d1.
    rewrite createTileObjects_objects. reflexivity. }
  split; [exact Hc2 |].
  split; [unfold center, derived_center_tile; cbn; exact Hzoom1 |].
  destruct (createTileObjects_settings (with_zoom_ z d))
    as (Hurl1 & Hblocks1 & Hcalls1). fold d1 in Hurl1, Hblocks1, Hcalls1.
  cbn in Hurl1, Hblocks1, Hcalls1.
  split.
  - intros Hurl. rewrite transformTileToMapFrame_cache_calls.
    rewrite (requestTileTextures_dispatches d2 center).
    + unfold d2; cbn. rewrite Hblocks1, Hcalls1. reflexivity.
    + unfold d2; cbn. rewrite Hen1. exact Hen.
    + unfold d2; cbn. rewrite Hurl1. exact Hurl.
    + reflexivity.
  - intros t q Hmap.
    pose proof (requestTileTextures_core d2) as Hcore3.
    unfold core in Hcore3. injection Hcore3 as _ Hz3 Hfix3 _.
    cbn in Hz3, Hfix3.
    rewrite (transformTileToMapFrame_stores fm (requestTileTextures d2)
               ref_fix t q Hfix3 Hmap).
    cbn [t_centertile_map with_t_centertile_map].
    rewrite Hz3, Hzoom1. reflexivity.
Qed.

End PropertyChanges.

(** ** The tile objects *)

Section TileObjects.
Context `{Scalar} `{!OgreMath} `{!Mercator} `{!TileCacheOps}.

Lemma create_loop_members (rounds : nat) (d : Display) :
  isEnabled (create_loop rounds d) = isEnabled d
  /\ blocks_ (create_loop rounds d) = blocks_ d
  /\ placement (create_loop rounds d) = placement d
  /\ tileCache_ (create_loop rounds d) = tileCache_ d
  /\ statuses (create_loop rounds d) = statuses d
  /\ dirty_ (create_loop rounds d) = dirty_ d.
Proof.
  revert d. induction rounds as [| rounds IH]; intros d; cbn [create_loop].
  - repeat split.
  - match goal with
    | |- context [create_loop rounds ?x] =>
        destruct (IH x) as (-> & -> & -> & -> & -> & ->)
    end.
    repeat split.
Qed.

Lemma createTileObjects_members (d : Display) :
  isEnabled (createTileObjects d) = isEnabled d
  /\ blocks_ (createTileObjects d) = blocks_ d
  /\ placement (createTileObjects d) = placement d
  /\ tileCache_ (createTileObjects d) = tileCache_ d
  /\ statuses (createTileObjects d) = statuses d
  /\ dirty_ (createTileObjects d) = dirty_ d.
Proof.
  unfold createTileObjects.
  match goal with
  | |- context [create_loop ?n ?x] =>
      destruct (create_loop_members n x) as (-> & -> & -> & -> & -> & ->)
  end.
  destruct (objects_ d); repeat split.
Qed.

Lemma createTileObjects_count (d : Display) :
  count (createTileObjects d) =
  count d + (2 * blocks_ d + 1) * (2 * blocks_ d + 1).
Proof.
  unfold createTileObjects.
  match goal with
  | |- context [create_loop ?n ?x] =>
      destruct (create_loop_objects n x) as [_ ->]
  end.
  assert (Hsq : 0 <= (2 * blocks_ d + 1) * (2 * blocks_ d + 1)) by nia.
  destruct (objects_ d); cbn [count blocks_ destroyTileObjects with_objects_];
    rewrite Z2Nat.id by exact Hsq; reflexivity.
Qed.

(** X1: [createTileObjects] replaces whatever objects there were by
    (2 blocks + 1)^2 new ones, all invisible and without texture or
    vertices.  They are named by the successive values of the counter, which
    moves on by their number: no two of them share a name, and none has a
    name that the counter gave out before. *)
Theorem createTileObjects_fresh_grid (d : Display) :
  let d' := createTileObjects d in
  objects_ d' = map new_object (seqZ (count d) (Z.of_nat (grid_size (blocks_ d))))
  /\ length (objects_ d') = grid_size (blocks_ d)
  /\ count d' = count d + Z.of_nat (grid_size (blocks_ d))
  /\ NoDup (object_names d')
  /\ Forall (fun n => count d <= n < count d') (object_names d')
  /\ Forall (fun o => visible o = false /\ texture o = None /\ vertices o = [])
       (objects_ d').
Proof.
  intros d'. subst d'.
  assert (Hsq : 0 <= (2 * blocks_ d + 1) * (2 * blocks_ d + 1)) by nia.
  assert (Hn : Z.of_nat (grid_size (blocks_ d)) =
               (2 * blocks_ d + 1) * (2 * blocks_ d + 1)).
  { unfold grid_size. apply Z2Nat.id. exact Hsq. }
  assert (Hnames : object_names (createTileObjects d) =
                   seqZ (count d) (Z.of_nat (grid_size (blocks_ d)))).
  { unfold object_names. rewrite createTileObjects_objects, Hn.
    rewrite map_map. cbn [name_suffix new_object]. apply map_id. }
  rewrite Hnames, createTileObjects_count, createTileObjects_objects, Hn.
  split; [reflexivity |].
  split.
  { rewrite length_map, length_seqZ. reflexivity. }
  split; [reflexivity |].
  split; [apply NoDup_seqZ |].
  split.
  { apply Forall_seqZ. intros n Hr. lia. }
  apply Forall_forall. intros o Ho.
  apply list_elem_of_In, in_map_iff in Ho. destruct Ho as (n & <- & _).
  repeat split.
Qed.

(** One round of the loop keeps the names of the objects. *)
Lemma assemble_tile_names (d : Display) (c : TileId) (xx yy : Z)
  (st st' : LoopState) :
  assemble_tile d c xx yy st = Some st' ->
  map name_suffix (ls_objects st') = map name_suffix (ls_objects st).
Proof.
  unfold assemble_tile.
  destruct (ls_objects st !! ls_it st) as [o |] eqn:Ho; [| discriminate].
  assert (Hid : forall o' : MapObject,
             name_suffix o' = name_suffix o ->
             map name_suffix (<[ls_it st := o']> (ls_objects st)) =
             map name_suffix (ls_objects st)).
  { intros o' Hname.
    change (name_suffix <$> <[ls_it st := o']> (ls_objects st) =
            name_suffix <$> ls_objects st).
    rewrite list_fmap_insert. apply list_insert_id.
    rewrite list_lookup_fmap, Ho, Hname. reflexivity. }
  destruct (cache_ready (tileCache_ d) _) as [tile |].
  - destruct (ref_fix_ d) as [ref_fix |]; [| discriminate].
    intros [= <-]. cbn. apply Hid. reflexivity.
  - intros [= <-]. cbn. apply Hid. reflexivity.
Qed.

Lemma assemble_slots_names (d : Display) (c : TileId)
  (slots : list (Z * Z)) (st st' : LoopState) :
  assemble_slots d c slots st = Some st' ->
  map name_suffix (ls_objects st') = map name_suffix (ls_objects st).
Proof.
  revert st. induction slots as [| slot slots IH]; intros st; cbn.
  - intros [= <-]. reflexivity.
  - destruct (assemble_tile d c (fst slot) (snd slot) st) as [st1 |] eqn:Hone;
      [| discriminate].
    intros Hrest. rewrite (IH st1 Hrest).
    eapply assemble_tile_names. exact Hone.
Qed.

(** What a call of [assembleScene] that returns may change: the objects but
    not their names, the dirty flag, the cache, the calls made on it and the
    statuses. *)
Lemma assembleScene_members (d d' : Display) :
  assembleScene d = Some d' ->
  geometry d' = geometry d
  /\ placement d' = placement d
  /\ tile_url_ d' = tile_url_ d
  /\ alpha_ d' = alpha_ d
  /\ draw_under_ d' = draw_under_ d.
Proof.
  unfold assembleScene.
  destruct (negb (isEnabled d) || negb (dirty_ d));
    [intros [= <-]; repeat split |].
  destruct (lastCenterTile_ d) as [c |] eqn:Hc; [| intros [= <-]; repeat split].
  destruct (objects_ d) as [| o0 objs] eqn:Hobjs;
    [intros [= <-]; repeat split |].
  rewrite for_xx_slots.
  match goal with
  | |- context [assemble_slots ?a ?b ?sl ?st] =>
      destruct (assemble_slots a b sl st) as [st' |] eqn:Hrun; [| discriminate]
  end.
  apply assemble_slots_names in Hrun. cbn in Hrun.
  match goal with
  | |- context [checkRequestErrorRate ?x] =>
      destruct (checkRequestErrorRate_sets x) as (lv & nm & txt & ->)
  end.
  intros [= <-]. unfold geometry, placement, object_names.
  destruct (loadedAllTiles st'); cbn; rewrite Hrun, ?Hobjs, ?Hc;
    repeat split.
Qed.

End TileObjects.

(** ** What the operations leave alone *)

Section Members.
Context `{Scalar} `{!OgreMath} `{!Mercator} `{!TileCacheOps}.

Lemma requestTileTextures_members (d : Display) :
  geometry (requestTileTextures d) = geometry d
  /\ placement (requestTileTextures d) = placement d
  /\ tile_url_ (requestTileTextures d) = tile_url_ d.
Proof.
  unfold requestTileTextures.
  destruct (negb (isEnabled d)); [repeat split |].
  destruct (String.eqb (tile_url_ d) ""); [repeat split |].
  destruct (lastCenterTile_ d) as [c |] eqn:Hc; [| repeat split].
  destruct (cache_request (tileCache_ d) (mkArea c (blocks_ d)))
    as [cache [what |]]; unfold placement; cbn; rewrite ?Hc; repeat split.
Qed.

Lemma transformTileToMapFrame_members (fm : FrameManager) (d : Display) :
  geometry (transformTileToMapFrame fm d) = geometry d
  /\ zoom_ (transformTileToMapFrame fm d) = zoom_ d
  /\ ref_fix_ (transformTileToMapFrame fm d) = ref_fix_ d
  /\ lastCenterTile_ (transformTileToMapFrame fm d) = lastCenterTile_ d
  /\ scene_position (transformTileToMapFrame fm d) = scene_position d
  /\ scene_orientation (transformTileToMapFrame fm d) = scene_orientation d
  /\ tile_url_ (transformTileToMapFrame fm d) = tile_url_ d
  /\ tileCache_ (transformTileToMapFrame fm d) = tileCache_ d
  /\ dirty_ (transformTileToMapFrame fm d) = dirty_ d.
Proof.
  unfold transformTileToMapFrame.
  destruct (ref_fix_ d) as [ref_fix |] eqn:Hfix; [| rewrite Hfix; repeat split].
  destruct (getMapTransform fm (frame_id ref_fix) (stamp ref_fix))
    as [[t q] | error]; cbn; rewrite ?Hfix; repeat split.
Qed.

Lemma transformMapTileToFixedFrame_members (fm : FrameManager)
  (d : Display) :
  geometry (transformMapTileToFixedFrame fm d) = geometry d
  /\ zoom_ (transformMapTileToFixedFrame fm d) = zoom_ d
  /\ ref_fix_ (transformMapTileToFixedFrame fm d) = ref_fix_ d
  /\ lastCenterTile_ (transformMapTileToFixedFrame fm d) = lastCenterTile_ d
  /\ t_centertile_map (transformMapTileToFixedFrame fm d) = t_centertile_map d
  /\ tile_url_ (transformMapTileToFixedFrame fm d) = tile_url_ d
  /\ tileCache_ (transformMapTileToFixedFrame fm d) = tileCache_ d
  /\ cache_calls (transformMapTileToFixedFrame fm d) = cache_calls d
  /\ dirty_ (transformMapTileToFixedFrame fm d) = dirty_ d
  /\ objects_ (transformMapTileToFixedFrame fm d) = objects_ d.
Proof.
  unfold transformMapTileToFixedFrame.
  destruct (getTransform fm MAP_FRAME Time0) as [[t q] |]; [repeat split |].
  destruct (transformHasProblems fm MAP_FRAME Time0); repeat split.
Qed.

Lemma updateCenterTile_geometry (fm : FrameManager) (msg : NavSatFix)
  (d : Display) :
  geometry (updateCenterTile fm msg d) = geometry d
  /\ tile_url_ (updateCenterTile fm msg d) = tile_url_ d
  /\ zoom_ (updateCenterTile fm msg d) = zoom_ d.
Proof.
  unfold updateCenterTile.
  destruct (negb (isEnabled d)); [repeat split |].
  match goal with
  | |- context [if negb ?b then _ else _] => destruct b
  end; cbn [negb]; [| repeat split].
  match goal with
  | |- context [transformTileToMapFrame fm ?x] =>
      destruct (transformTileToMapFrame_members fm x)
        as (-> & -> & _ & _ & _ & _ & -> & _)
  end.
  match goal with
  | |- context [requestTileTextures ?x] =>
      destruct (requestTileTextures_members x) as (-> & Hp & ->);
      unfold placement in Hp; injection Hp as -> _ _ _ _ _
  end.
  repeat split.
Qed.

Lemma subscribe_members (topic : string) (failure : option string)
  (d : Display) :
  geometry (subscribe topic failure d) = geometry d
  /\ placement (subscribe topic failure d) = placement d
  /\ objects_ (subscribe topic failure d) = objects_ d
  /\ cache_calls (subscribe topic failure d) = cache_calls d
  /\ dirty_ (subscribe topic failure d) = dirty_ d.
Proof.
  unfold subscribe.
  destruct (negb (isEnabled d)); [repeat split |].
  destruct (String.eqb topic ""); [repeat split |].
  destruct failure; repeat split.
Qed.

Lemma update_members (fm : FrameManager) (d d' : Display) :
  update fm d = Some d' ->
  geometry d' = geometry d
  /\ zoom_ d' = zoom_ d
  /\ ref_fix_ d' = ref_fix_ d
  /\ lastCenterTile_ d' = lastCenterTile_ d
  /\ t_centertile_map d' = t_centertile_map d
  /\ tile_url_ d' = tile_url_ d.
Proof.
  unfold update.
  destruct (ref_fix_ d) eqn:Hfix; [| intros [= <-]; rewrite Hfix; repeat split].
  destruct (lastCenterTile_ d) eqn:Hc;
    [| intros [= <-]; rewrite Hfix, Hc; repeat split].
  destruct (assembleScene d) as [d1 |] eqn:Hpass; [| discriminate].
  intros [= <-].
  destruct (assembleScene_members d d1 Hpass) as (Hg & Hp & Hurl & _).
  unfold placement in Hp. injection Hp as Hz Hf Hl Ha _ _.
  destruct (transformMapTileToFixedFrame_members fm d1)
    as (-> & -> & -> & -> & -> & -> & _).
  rewrite Hg, Hz, Hf, Hl, Ha, Hurl, Hfix, Hc. repeat split.
Qed.

(** ** The grid of objects in the states that the display reaches *)

Lemma tidy_geometry (d d' : Display) :
  geometry d' = geometry d -> tidy d -> tidy d'.
Proof.
  unfold geometry, tidy. intros [= Hen Hb Hc Hn] (Hon & Hoff & Hdup & Hlt).
  assert (Hlen : length (objects_ d') = length (objects_ d)).
  { unfold object_names in Hn.
    rewrite <- (length_map name_suffix (objects_ d')), Hn, length_map.
    reflexivity. }
  rewrite Hen, Hb, Hc, Hn, Hlen.
  split; [exact Hon |]. split; [| split; assumption].
  intros Hdis. specialize (Hoff Hdis). rewrite Hoff in Hlen.
  apply length_zero_iff_nil. exact Hlen.
Qed.

Lemma createTileObjects_names (d : Display) :
  object_names (createTileObjects d) =
  seqZ (count d) (Z.of_nat (grid_size (blocks_ d))).
Proof.
  assert (Hsq : 0 <= (2 * blocks_ d + 1) * (2 * blocks_ d + 1)) by nia.
  unfold object_names, grid_size.
  rewrite createTileObjects_objects, Z2Nat.id by exact Hsq.
  rewrite map_map. cbn [name_suffix new_object]. apply map_id.
Qed.

Lemma createTileObjects_tidy (d : Display) :
  isEnabled d = true -> tidy (createTileObjects d).
Proof.
  intros Hen.
  destruct (createTileObjects_members d) as (Hen' & Hb & _).
  assert (Hsq : 0 <= (2 * blocks_ d + 1) * (2 * blocks_ d + 1)) by nia.
  unfold tidy.
  rewrite createTileObjects_names, createTileObjects_count, Hen', Hb, Hen.
  split.
  { intros _. rewrite createTileObjects_objects, length_map, length_seqZ.
    reflexivity. }
  split; [discriminate |].
  split; [apply NoDup_seqZ |].
  apply Forall_seqZ. intros n Hr. unfold grid_size in Hr.
  rewrite Z2Nat.id in Hr by exact Hsq. lia.
Qed.

Lemma clearAll_tidy (d : Display) :
  isEnabled d = false -> tidy (clearAll d).
Proof.
  intros Hen. unfold tidy, clearAll, object_names; cbn. rewrite Hen.
  split; [discriminate |]. split; [reflexivity |].
  split; [apply NoDup_nil_2 | apply Forall_nil_2].
Qed.

Lemma step_tidy (d d' : Display) : step d d' -> tidy d -> tidy d'.
Proof.
  intros Hstep Hd.
  destruct Hstep
    as [topic failure d | d | topic failure d | alpha d | draw_under d
       | tile_url d | fm z d | blocks d | fm msg d | fm d d' Hupdate].
  - unfold onEnable.
    eapply tidy_geometry; [apply subscribe_members |].
    apply createTileObjects_tidy. reflexivity.
  - unfold onDisable. apply clearAll_tidy. reflexivity.
  - unfold updateTopic. destruct (isEnabled d) eqn:Hen; cbn [negb];
      [| exact Hd].
    eapply tidy_geometry; [apply subscribe_members |].
    apply createTileObjects_tidy. exact Hen.
  - unfold updateAlpha. destruct (req_b alpha (alpha_ d)); [exact Hd |].
    cbn. destruct (negb (isEnabled d)); exact Hd.
  - unfold updateDrawUnder.
    destruct (Bool.eqb draw_under (draw_under_ d)); [exact Hd |].
    cbn. destruct (negb (isEnabled d)); exact Hd.
  - unfold updateTileUrl.
    destruct (String.eqb tile_url (tile_url_ d)); [exact Hd |].
    cbn. destruct (negb (isEnabled d)); [exact Hd |].
    eapply tidy_geometry; [apply requestTileTextures_members | exact Hd].
  - unfold updateZoom. destruct (z =? zoom_ d); [exact Hd |].
    cbn [isEnabled with_zoom_].
    destruct (isEnabled d) eqn:Hen; cbn [negb]; [| exact Hd].
    assert (Ht : tidy (createTileObjects (with_zoom_ z d)))
      by (apply createTileObjects_tidy; exact Hen).
    destruct (ref_fix_ (createTileObjects (with_zoom_ z d))); [| exact Ht].
    eapply tidy_geometry; [apply updateCenterTile_geometry | exact Ht].
  - unfold updateBlocks. destruct (blocks =? blocks_ d); [exact Hd |].
    cbn [isEnabled with_blocks_].
    destruct (isEnabled d) eqn:Hen; cbn [negb].
    + eapply tidy_geometry; [apply requestTileTextures_members |].
      apply createTileObjects_tidy. exact Hen.
    + destruct Hd as (_ & Hoff & Hdup & Hlt).
      unfold tidy; cbn. rewrite Hen.
      split; [discriminate |].
      split; [intros _; exact (Hoff Hen) |]. split; assumption.
  - unfold navFixCallback.
    eapply tidy_geometry; [| exact Hd].
    transitivity (geometry (updateCenterTile fm msg d));
      [reflexivity | apply updateCenterTile_geometry].
  - eapply tidy_geometry; [eapply update_members; eassumption | exact Hd].
Qed.

Lemma initial_tidy (frame : string) (cache : TileCache)
  (anchor position : Vector3) (orientation : Quaternion) :
  tidy (initial frame cache anchor position orientation).
Proof.
  unfold tidy, object_names; cbn.
  split; [discriminate |]. split; [reflexivity |].
  split; [apply NoDup_nil_2 | apply Forall_nil_2].
Qed.

(** X2: in every state that the display reaches, an enabled display has
    exactly (2 blocks + 1)^2 tile objects for its current block setting and
    a disabled display has none; the names of the objects are pairwise
    distinct and all below the counter, so that the next objects get names
    that no object has. *)
Theorem reachable_tidy (d : Display) : reachable d -> tidy d.
Proof.
  induction 1 as [frame cache anchor position orientation | d d' _ IH Hstep].
  - apply initial_tidy.
  - eapply step_tidy; eassumption.
Qed.

(** X3: if an area never holds more than (2 blocks + 1)^2 tiles, then in
    every state that the display reaches the render update returns: the
    iterator of [assembleScene] stays inside [objects_] and the fix that it
    reads is set. *)
Theorem update_defined (fm : FrameManager) (d : Display) :
  area_fits ->
  reachable d ->
  exists d' : Display, update fm d = Some d'.
Proof.
  intros Hfits Hreach.
  assert (Htidy : tidy d).
  { clear fm. induction Hreach as [? ? ? ? ? | d d' _ IH Hstep];
      [apply initial_tidy | eapply step_tidy; eassumption]. }
  destruct (reachable_consistent d Hreach) as (_ & _ & Hoff).
  unfold update.
  destruct (ref_fix_ d) as [ref_fix |] eqn:Hfix; [| eauto].
  destruct (lastCenterTile_ d) as [c |] eqn:Hc; [| eauto].
  assert (Hen : isEnabled d = true).
  { destruct (isEnabled d); [reflexivity |].
    specialize (Hoff eq_refl). discriminate. }
  destruct (dirty_ d) eqn:Hdirty.
  - destruct Htidy as (Hon & _).
    assert (Hpos : (0 < grid_size (blocks_ d))%nat).
    { unfold grid_size. apply Z2Nat.inj_lt with (n := 0); nia. }
    destruct (assembleScene_pass d c ref_fix) as (d1 & -> & _).
    + unfold pass_runs. rewrite (Hon Hen).
      split; [exact Hen |]. split; [exact Hc |]. split; [exact Hfix |].
      split; [| apply Hfits].
      intros Hnil. specialize (Hon Hen). rewrite Hnil in Hon.
      cbn in Hon. lia.
    + exact Hdirty.
    + eauto.
  - rewrite (assembleScene_clean d Hdirty). eauto.
Qed.

(** ** The center tile in the states that the display reaches *)

Lemma centered_core (d d' : Display) :
  core d' = core d -> centered d -> centered d'.
Proof.
  unfold core, centered. intros [= _ -> -> ->]. auto.
Qed.

(** [updateCenterTile] leaves a centered display centered; when it stores a
    center tile, that tile is the tile of the fix that it stores with it. *)
Lemma updateCenterTile_centered (fm : FrameManager) (msg : NavSatFix)
  (d : Display) :
  (isEnabled d = false
   \/ lastCenterTile_ d = Some (derived_center_tile d msg) -> centered d) ->
  centered (updateCenterTile fm msg d).
Proof.
  intros Hkeep. unfold updateCenterTile.
  destruct (isEnabled d) eqn:Hen; cbn [negb]; [| apply Hkeep; left; reflexivity].
  fold (derived_center_tile d msg).
  assert (Hnew : centered
                   (transformTileToMapFrame fm
                      (requestTileTextures
                         (with_ref_fix_ (Some msg)
                            (with_lastCenterTile_
                               (Some (derived_center_tile d msg)) d))))).
  { eapply centered_core.
    { rewrite transformTileToMapFrame_core, requestTileTextures_core.
      reflexivity. }
    intros c [= <-]. exists msg. cbn. auto. }
  destruct (lastCenterTile_ d) as [last |] eqn:Hlast; [| exact Hnew].
  destruct (TileId_eqb (derived_center_tile d msg) last) eqn:Heq;
    cbn [negb]; [| exact Hnew].
  apply TileId_eqb_eq in Heq. subst last.
  apply Hkeep. right. reflexivity.
Qed.

Lemma step_centered (d d' : Display) :
  step d d' -> consistent d -> centered d -> centered d'.
Proof.
  intros Hstep (_ & Hboth & Hoff) Hd.
  destruct Hstep
    as [topic failure d | d | topic failure d | alpha d | draw_under d
       | tile_url d | fm z d | blocks d | fm msg d | fm d d' Hupdate].
  - unfold onEnable.
    eapply centered_core;
      [rewrite subscribe_core, createTileObjects_core; reflexivity |].
    intros c Hc. destruct (Hd c Hc) as (ref_fix & Hfix & Hcoord & Hzoom).
    exists ref_fix. auto.
  - unfold onDisable, clearAll. intros c Hc. discriminate.
  - unfold updateTopic. destruct (negb (isEnabled d)); [exact Hd |].
    eapply centered_core;
      [rewrite subscribe_core, createTileObjects_core; reflexivity |].
    intros c Hc. discriminate.
  - unfold updateAlpha. destruct (req_b alpha (alpha_ d)); [exact Hd |].
    cbn. destruct (negb (isEnabled d)); exact Hd.
  - unfold updateDrawUnder.
    destruct (Bool.eqb draw_under (draw_under_ d)); [exact Hd |].
    cbn. destruct (negb (isEnabled d)); exact Hd.
  - unfold updateTileUrl.
    destruct (String.eqb tile_url (tile_url_ d)); [exact Hd |].
    cbn. destruct (negb (isEnabled d)); [exact Hd |].
    eapply centered_core; [apply requestTileTextures_core | exact Hd].
  - unfold updateZoom. destruct (z =? zoom_ d); [exact Hd |].
    cbn [isEnabled with_zoom_].
    destruct (isEnabled d) eqn:Hen; cbn [negb].
    + pose proof (createTileObjects_core (with_zoom_ z d)) as Hcore.
      unfold core in Hcore. cbn in Hcore.
      injection Hcore as Hen' Hzoom' Hfix' Hlast'.
      rewrite Hfix'.
      destruct (ref_fix_ d) as [ref_fix |] eqn:Hfix.
      * apply updateCenterTile_centered.
        intros [Hdis | Hsame]; [rewrite Hen', Hen in Hdis; discriminate |].
        intros c Hc. rewrite Hsame in Hc. injection Hc as <-.
        exists ref_fix. rewrite Hfix'. cbn. auto.
      * intros c Hc. rewrite Hlast' in Hc.
        destruct Hboth as [Hnone _]. rewrite (Hnone eq_refl) in Hc.
        discriminate.
    + intros c Hc. cbn in Hc. rewrite (Hoff eq_refl) in Hc. discriminate.
  - unfold updateBlocks. destruct (blocks =? blocks_ d); [exact Hd |].
    cbn. destruct (negb (isEnabled d)); [exact Hd |].
    eapply centered_core;
      [rewrite requestTileTextures_core, createTileObjects_core; reflexivity |].
    exact Hd.
  - unfold navFixCallback.
    eapply centered_core with (d := updateCenterTile fm msg d);
      [reflexivity |].
    apply updateCenterTile_centered. intros _. exact Hd.
  - eapply centered_core; [eapply update_core; eassumption | exact Hd].
Qed.

(** X4: in every state that the display reaches, the stored center tile is
    the tile of the stored fix at the current zoom: its coordinates are
    [fromWGSCoordinate] of the latitude and longitude of [ref_fix_] at
    [zoom_], and its zoom is [zoom_]. *)
Theorem reachable_centered (d : Display) : reachable d -> centered d.
Proof.
  induction 1 as [frame cache anchor position orientation | d d' Hreach IH Hstep].
  - intros c Hc. discriminate.
  - eapply step_centered; [exact Hstep | | exact IH].
    apply reachable_consistent. exact Hreach.
Qed.

End Members.

(** ** Requests with an empty tile URL, and the effects of a zoom change *)

Section Requests.
Context `{Scalar} `{!OgreMath} `{!Mercator} `{!TileCacheOps}.

(** C5: a tile-texture request made while the tile URL is empty fails: the
    error "Tile URL is not set" is reported under "TileRequest", and the
    request is dropped before it reaches the cache, whose state and calls are
    as before, as is the dirty flag.  The display is enabled, as it is at
    each of the three places where the program makes the request: in
    [updateBlocks], in [updateCenterTile] and in [updateTileUrl], each of
    which ends with that error and without a call of the cache. *)
Theorem requestTileTextures_empty_url (d : Display) :
  tile_url_ d = "" ->
  isEnabled d = true ->
  let failed :=
    setStatus StatusProperty.Error "TileRequest" "Tile URL is not set" in
  requestTileTextures d = failed d
  /\ statuses (requestTileTextures d) =
     mkStatus StatusProperty.Error "TileRequest" "Tile URL is not set"
       :: statuses d
  /\ tileCache_ (requestTileTextures d) = tileCache_ d
  /\ cache_calls (requestTileTextures d) = cache_calls d
  /\ dirty_ (requestTileTextures d) = dirty_ d
  /\ (forall blocks : Z,
        blocks <> blocks_ d ->
        updateBlocks blocks d =
          failed (createTileObjects (with_blocks_ blocks d))
        /\ tileCache_ (updateBlocks blocks d) = tileCache_ d
        /\ cache_calls (updateBlocks blocks d) = cache_calls d)
  /\ (forall (fm : FrameManager) (msg : NavSatFix),
        lastCenterTile_ d <> Some (derived_center_tile d msg) ->
        updateCenterTile fm msg d =
          transformTileToMapFrame fm
            (failed
               (with_ref_fix_ (Some msg)
                  (with_lastCenterTile_
                     (Some (derived_center_tile d msg)) d)))
        /\ tileCache_ (updateCenterTile fm msg d) = tileCache_ d
        /\ cache_calls (updateCenterTile fm msg d) = cache_calls d)
  /\ (forall d0 : Display,
        isEnabled d0 = true ->
        tile_url_ d0 <> "" ->
        updateTileUrl "" d0 = failed (with_tile_url_ "" d0)
        /\ tileCache_ (updateTileUrl "" d0) = tileCache_ d0
        /\ cache_calls (updateTileUrl "" d0) = cache_calls d0).
Proof.
  intros Hurl Hen failed.
  assert (Hfail : forall x : Display,
             tile_url_ x = "" -> isEnabled x = true ->
             requestTileTextures x = failed x).
  { intros x Hx Hxen. unfold requestTileTextures. rewrite Hxen, Hx.
    reflexivity. }
  rewrite (Hfail d Hurl Hen).
  split; [reflexivity |]. split; [reflexivity |].
  split; [reflexivity |]. split; [reflexivity |]. split; [reflexivity |].
  split; [| split].
  - intros blocks Hb.
    destruct (createTileObjects_members (with_blocks_ blocks d))
      as (Hen1 & _ & _ & Hcache1 & _).
    destruct (createTileObjects_settings (with_blocks_ blocks d))
      as (Hurl1 & _ & Hcalls1).
    assert (Heq : updateBlocks blocks d =
                  failed (createTileObjects (with_blocks_ blocks d))).
    { unfold updateBlocks. apply Z.eqb_neq in Hb. rewrite Hb.
      cbn [isEnabled with_blocks_]. rewrite Hen. cbn [negb].
      apply Hfail; [rewrite Hurl1; exact Hurl | rewrite Hen1; exact Hen]. }
    rewrite Heq. split; [reflexivity |].
    unfold failed; cbn. rewrite Hcache1, Hcalls1. split; reflexivity.
  - intros fm msg Hother.
    assert (Heq : updateCenterTile fm msg d =
                  transformTileToMapFrame fm
                    (failed
                       (with_ref_fix_ (Some msg)
                          (with_lastCenterTile_
                             (Some (derived_center_tile d msg)) d)))).
    { unfold updateCenterTile. rewrite Hen. cbn [negb].
      fold (derived_center_tile d msg).
      assert (Hchanged :
                match lastCenterTile_ d with
                | Some last =>
                    negb (TileId_eqb (derived_center_tile d msg) last)
                | None => true
                end = true).
      { destruct (lastCenterTile_ d) as [last |]; [| reflexivity].
        destruct (TileId_eqb (derived_center_tile d msg) last) eqn:Hsame;
          [| reflexivity].
        apply TileId_eqb_eq in Hsame. subst last. contradiction. }
      rewrite Hchanged. cbn [negb].
      rewrite Hfail; [reflexivity | exact Hurl | exact Hen]. }
    rewrite Heq. split; [reflexivity |].
    match goal with
    | |- context [transformTileToMapFrame fm ?x] =>
        destruct (transformTileToMapFrame_members fm x)
          as (_ & _ & _ & _ & _ & _ & _ & -> & _);
        rewrite (transformTileToMapFrame_cache_calls fm x)
    end.
    split; reflexivity.
  - intros d0 Hen0 Hurl0.
    assert (Heq : updateTileUrl "" d0 = failed (with_tile_url_ "" d0)).
    { unfold updateTileUrl.
      destruct (String.eqb "" (tile_url_ d0)) eqn:Hsame.
      - apply String.eqb_eq in Hsame. symmetry in Hsame. contradiction.
      - cbn [isEnabled with_tile_url_]. rewrite Hen0. cbn [negb].
        apply Hfail; [reflexivity | exact Hen0]. }
    rewrite Heq. repeat split.
Qed.


(** C7: an opacity change touches only [alpha_] and [dirty_]: the cache and
    the calls made on it, the objects and the counter that names them, the
    center tile, the fix, the anchor, the pose of the scene and all other
    members stay as they are.  A new value is stored, and on an enabled
    display the dirty flag is set; on a disabled display the flag stays.
    A zoom change on an enabled display makes the objects anew and, when the
    display holds a fix, takes the center tile of the fix at the new zoom and
    calls [requestTileTextures] and then [transformTileToMapFrame]: with a
    tile URL one request goes to the cache, without one the error "Tile URL
    is not set" is reported and the cache is not reached; when the frames
    resolve the anchor is computed again, when they do not an error is
    reported and the anchor stays.  On a disabled display a zoom change only
    stores the zoom.  The display is in any state that it reaches from its
    construction. *)
Theorem updateAlpha_updateZoom_effects (fm : FrameManager) (z : Z)
  (d : Display) :
  reachable d ->
  z <> zoom_ d ->
  let d1 := createTileObjects (with_zoom_ z d) in
  (forall (alpha : real) (d0 : Display),
      same_but_alpha_and_dirty d0 (updateAlpha alpha d0)
      /\ (req_b alpha (alpha_ d0) = true -> updateAlpha alpha d0 = d0)
      /\ (req_b alpha (alpha_ d0) = false ->
          alpha_ (updateAlpha alpha d0) = alpha
          /\ (isEnabled d0 = true -> dirty_ (updateAlpha alpha d0) = true)
          /\ (isEnabled d0 = false ->
              dirty_ (updateAlpha alpha d0) = dirty_ d0)))
  /\ (isEnabled d = false -> updateZoom fm z d = with_zoom_ z d)
  /\ (isEnabled d = true ->
      zoom_ (updateZoom fm z d) = z
      /\ objects_ (updateZoom fm z d) =
         map new_object
           (seqZ (count d) ((2 * blocks_ d + 1) * (2 * blocks_ d + 1)))
      /\ (ref_fix_ d = None -> updateZoom fm z d = d1)
      /\ forall ref_fix : NavSatFix,
           ref_fix_ d = Some ref_fix ->
           let center := derived_center_tile d1 ref_fix in
           let d2 := with_ref_fix_ (Some ref_fix)
                       (with_lastCenterTile_ (Some center) d1) in
           updateZoom fm z d =
             transformTileToMapFrame fm (requestTileTextures d2)
           /\ lastCenterTile_ (updateZoom fm z d) = Some center
           /\ ref_fix_ (updateZoom fm z d) = Some ref_fix
           /\ zoom center = z
           /\ (tile_url_ d <> "" ->
               cache_calls (updateZoom fm z d) =
               Request (mkArea center (blocks_ d)) :: cache_calls d)
           /\ (tile_url_ d = "" ->
               cache_calls (updateZoom fm z d) = cache_calls d
               /\ tileCache_ (updateZoom fm z d) = tileCache_ d
               /\ In (mkStatus StatusProperty.Error "TileRequest"
                        "Tile URL is not set")
                    (statuses (updateZoom fm z d)))
           /\ (forall (t : Vector3) (q : Quaternion),
                 getMapTransform fm (frame_id ref_fix) (stamp ref_fix) =
                   inl (t, q) ->
                 t_centertile_map (updateZoom fm z d) =
                 vadd t (vneg (sub_tile_offset (getTileWH d) ref_fix z)))
           /\ (getTransform fm (frame_id ref_fix) (stamp ref_fix) = None
               \/ getTransform fm MAP_FRAME (stamp ref_fix) = None ->
               t_centertile_map (updateZoom fm z d) = t_centertile_map d
               /\ exists error : string,
                    head (statuses (updateZoom fm z d)) =
                    Some (mkStatus StatusProperty.Error "Transform" error))).
Proof.
  intros Hreach Hz d1.
  split.
  { intros alpha d0. split; [apply updateAlpha_frame |].
    unfold updateAlpha.
    destruct (req_b alpha (alpha_ d0)).
    - split; [reflexivity | discriminate].
    - split; [discriminate |]. intros _. cbn [isEnabled with_alpha_].
      destruct (isEnabled d0); cbn;
        repeat split; intros; try discriminate; reflexivity. }
  split.
  { intros Hen. unfold updateZoom.
    pose proof Hz as Hzb. apply Z.eqb_neq in Hzb. rewrite Hzb.
    cbn [isEnabled with_zoom_]. rewrite Hen. reflexivity. }
  intros Hen.
  destruct (createTileObjects_members (with_zoom_ z d))
    as (Hen1 & _ & Hp1 & Hcache1 & Hst1 & _).
  destruct (createTileObjects_settings (with_zoom_ z d))
    as (Hurl1 & _ & Hcalls1).
  fold d1 in Hen1, Hp1, Hcache1, Hst1, Hurl1, Hcalls1.
  unfold placement in Hp1. cbn in Hp1, Hen1, Hcache1, Hst1, Hurl1, Hcalls1.
  injection Hp1 as _ _ _ Hanchor1 _ _.
  destruct (ref_fix_ d) as [ref_fix |] eqn:Hfix.
  - destruct (updateZoom_effects_with_fix fm z d ref_fix Hreach Hen Hz Hfix)
      as (Heq & Hzoom & Hobjs & Hcenter & Hcz & Hcalls & Hanchor).
    split; [exact Hzoom |]. split; [exact Hobjs |].
    split; [discriminate |].
    intros ref_fix' [= <-]. cbn zeta.
    set (center := derived_center_tile d1 ref_fix) in *.
    set (d2 := with_ref_fix_ (Some ref_fix)
                 (with_lastCenterTile_ (Some center) d1)) in *.
    change (updateZoom fm z d =
            transformTileToMapFrame fm (requestTileTextures d2)) in Heq.
    pose proof (requestTileTextures_core d2) as Hcore.
    unfold core in Hcore. cbn in Hcore. injection Hcore as _ _ Hfix2 _.
    destruct (requestTileTextures_members d2) as (_ & Hp2 & _).
    unfold placement in Hp2. cbn in Hp2. injection Hp2 as _ _ _ Hanchor2 _ _.
    destruct (transformTileToMapFrame_members fm (requestTileTextures d2))
      as (_ & _ & Hfix3 & _ & _ & _ & _ & Hcache3 & _).
    split; [exact Heq |]. split; [exact Hcenter |].
    split; [rewrite Heq; etransitivity; [exact Hfix3 | exact Hfix2] |].
    split; [exact Hcz |]. split; [exact Hcalls |].
    split; [| split; [exact Hanchor |]].
    + intros Hurl.
      assert (Hfail : requestTileTextures d2 =
                      setStatus StatusProperty.Error "TileRequest"
                        "Tile URL is not set" d2).
      { unfold requestTileTextures.
        replace (isEnabled d2) with true by (symmetry; cbn; congruence).
        replace (tile_url_ d2) with "" by (symmetry; cbn; congruence).
        reflexivity. }
      rewrite Heq, Hfail. rewrite Hfail in Hcache3.
      split; [rewrite transformTileToMapFrame_cache_calls; cbn; exact Hcalls1 |].
      split; [rewrite Hcache3; cbn; exact Hcache1 |].
      unfold transformTileToMapFrame. cbn [ref_fix_ setStatus with_statuses d2
        with_ref_fix_].
      destruct (getMapTransform fm (frame_id ref_fix) (stamp ref_fix))
        as [[t q] | error]; cbn; auto.
    + intros Hfail.
      destruct (getMapTransform_fails fm _ _ Hfail) as [error Herr].
      rewrite Heq. unfold transformTileToMapFrame. rewrite Hfix2, Herr. cbn.
      split; [| eauto].
      rewrite Hanchor2. exact Hanchor1.
  - pose proof (updateZoom_without_fix fm z d Hen Hz Hfix) as Heq.
    rewrite Heq.
    pose proof (createTileObjects_core (with_zoom_ z d)) as Hcore.
    unfold core in Hcore. cbn in Hcore. injection Hcore as _ Hzoom _ _.
    split; [exact Hzoom |].
    split; [rewrite createTileObjects_objects; reflexivity |].
    split; [reflexivity |].
    intros ref_fix' Hsome. discriminate.
Qed.

End Requests.

(** ** Property slots, fixes and the hooks of the host *)

Section Slots.
Context `{Scalar} `{!OgreMath} `{!Mercator} `{!TileCacheOps}.

Lemma updateTileUrl_url (tile_url : string) (d : Display) :
  tile_url_ (updateTileUrl tile_url d) = tile_url.
Proof.
  unfold updateTileUrl.
  destruct (String.eqb tile_url (tile_url_ d)) eqn:Heq.
  - apply String.eqb_eq in Heq. auto.
  - cbn. destruct (negb (isEnabled d)); [reflexivity |].
    destruct (requestTileTextures_members (with_tile_url_ tile_url d))
      as (_ & _ & ->).
    reflexivity.
Qed.

Lemma updateZoom_zoom (fm : FrameManager) (z : Z) (d : Display) :
  zoom_ (updateZoom fm z d) = z.
Proof.
  unfold updateZoom.
  destruct (z =? zoom_ d) eqn:Heq; [apply Z.eqb_eq in Heq; auto |].
  cbn [isEnabled with_zoom_]. destruct (negb (isEnabled d)); [reflexivity |].
  pose proof (createTileObjects_core (with_zoom_ z d)) as Hcore.
  unfold core in Hcore. cbn in Hcore. injection Hcore as _ Hzoom _ _.
  destruct (ref_fix_ (createTileObjects (with_zoom_ z d))); [| exact Hzoom].
  destruct (updateCenterTile_geometry fm n (createTileObjects (with_zoom_ z d)))
    as (_ & _ & ->).
  exact Hzoom.
Qed.

Lemma updateBlocks_blocks (blocks : Z) (d : Display) :
  blocks_ (updateBlocks blocks d) = blocks.
Proof.
  unfold updateBlocks.
  destruct (blocks =? blocks_ d) eqn:Heq; [apply Z.eqb_eq in Heq; auto |].
  cbn [isEnabled with_blocks_]. destruct (negb (isEnabled d)); [reflexivity |].
  destruct (requestTileTextures_members
              (createTileObjects (with_blocks_ blocks d))) as (Hg & _).
  unfold geometry in Hg. injection Hg as _ -> _ _.
  destruct (createTileObjects_members (with_blocks_ blocks d))
    as (_ & -> & _).
  reflexivity.
Qed.

(** X6: a change of the draw-behind flag, of the tile URL or of the number
    of blocks never touches the placement: the zoom, the stored fix, the
    center tile, the anchor and the pose of the scene node are as before. *)
Theorem property_changes_keep_placement (draw_under : bool)
  (tile_url : string) (blocks : Z) (d : Display) :
  placement (updateDrawUnder draw_under d) = placement d
  /\ placement (updateTileUrl tile_url d) = placement d
  /\ placement (updateBlocks blocks d) = placement d.
Proof.
  split; [| split].
  - unfold updateDrawUnder.
    destruct (Bool.eqb draw_under (draw_under_ d)); [reflexivity |].
    cbn. destruct (negb (isEnabled d)); reflexivity.
  - unfold updateTileUrl.
    destruct (String.eqb tile_url (tile_url_ d)); [reflexivity |].
    cbn. destruct (negb (isEnabled d)); [reflexivity |].
    destruct (requestTileTextures_members (with_tile_url_ tile_url d))
      as (_ & -> & _).
    reflexivity.
  - unfold updateBlocks.
    destruct (blocks =? blocks_ d); [reflexivity |].
    cbn [isEnabled with_blocks_]. destruct (negb (isEnabled d)); [reflexivity |].
    destruct (requestTileTextures_members
                (createTileObjects (with_blocks_ blocks d))) as (_ & -> & _).
    destruct (createTileObjects_members (with_blocks_ blocks d))
      as (_ & _ & -> & _).
    reflexivity.
Qed.

(** X7: every property slot is idempotent: fired again with the same value
    it finds the value stored and returns at once, so that no second round
    of object creation or tile request takes place. *)
Theorem property_slots_idempotent (fm : FrameManager) (alpha : real)
  (draw_under : bool) (tile_url : string) (z blocks : Z) (d : Display) :
  updateAlpha alpha (updateAlpha alpha d) = updateAlpha alpha d
  /\ updateDrawUnder draw_under (updateDrawUnder draw_under d) =
     updateDrawUnder draw_under d
  /\ updateTileUrl tile_url (updateTileUrl tile_url d) =
     updateTileUrl tile_url d
  /\ updateZoom fm z (updateZoom fm z d) = updateZoom fm z d
  /\ updateBlocks blocks (updateBlocks blocks d) = updateBlocks blocks d.
Proof.
  split; [| split; [| split; [| split]]].
  - unfold updateAlpha at 2 3.
    destruct (req_b alpha (alpha_ d)) eqn:Hsame.
    + unfold updateAlpha. rewrite Hsame. reflexivity.
    + cbn [isEnabled with_alpha_].
      destruct (isEnabled d) eqn:Hen; cbn [negb]; unfold updateAlpha; cbn;
        rewrite ?Hen; destruct (req_b alpha alpha); reflexivity.
  - unfold updateDrawUnder at 2 3.
    destruct (Bool.eqb draw_under (draw_under_ d)) eqn:Hsame.
    + unfold updateDrawUnder. rewrite Hsame. reflexivity.
    + cbn [isEnabled with_draw_under_].
      destruct (isEnabled d) eqn:Hen; cbn [negb]; unfold updateDrawUnder; cbn;
        rewrite Bool.eqb_reflx; reflexivity.
  - unfold updateTileUrl at 1.
    rewrite updateTileUrl_url, String.eqb_refl. reflexivity.
  - unfold updateZoom at 1.
    rewrite updateZoom_zoom, Z.eqb_refl. reflexivity.
  - unfold updateBlocks at 1.
    rewrite updateBlocks_blocks, Z.eqb_refl. reflexivity.
Qed.

(** X5: a change of the tile URL to a new URL that is not empty, on an
    enabled display that holds a center tile, makes a request to the cache:
    it requests the area of that stored center tile, which is not
    replaced: the request still carries the server of the stored tile.  When
    that server differs from the new URL, the next fix always re-centers,
    also when it falls into the same tile. *)
Theorem updateTileUrl_requests_stored_center (tile_url : string)
  (d : Display) (c : TileId) :
  isEnabled d = true ->
  lastCenterTile_ d = Some c ->
  tile_url <> tile_url_ d ->
  tile_url <> "" ->
  let d' := updateTileUrl tile_url d in
  tile_url_ d' = tile_url
  /\ lastCenterTile_ d' = Some c
  /\ cache_calls d' = Request (mkArea c (blocks_ d)) :: cache_calls d
  /\ (tileServer c <> tile_url ->
      forall (fm : FrameManager) (msg : NavSatFix),
        lastCenterTile_ (updateCenterTile fm msg d') =
          Some (mkTileId tile_url
                  (fromWGSCoordinate (mkWGS (latitude msg) (longitude msg))
                     (zoom_ d))
                  (zoom_ d))
        /\ ref_fix_ (updateCenterTile fm msg d') = Some msg).
Proof.
  intros Hen Hc Hnew Hset d'.
  assert (Heq : d' = requestTileTextures (with_tile_url_ tile_url d)).
  { subst d'. unfold updateTileUrl.
    destruct (String.eqb tile_url (tile_url_ d)) eqn:Hsame.
    - apply String.eqb_eq in Hsame. contradiction.
    - cbn. rewrite Hen. reflexivity. }
  pose proof (requestTileTextures_core (with_tile_url_ tile_url d)) as Hcore.
  rewrite <- Heq in Hcore. unfold core in Hcore. cbn in Hcore.
  injection Hcore as Hen' Hzoom' Hfix' Hlast'.
  assert (Hurl' : tile_url_ d' = tile_url)
    by (subst d'; apply updateTileUrl_url).
  split; [exact Hurl' |].
  split; [rewrite Hlast'; exact Hc |].
  split.
  { rewrite Heq.
    rewrite (requestTileTextures_dispatches (with_tile_url_ tile_url d) c);
      [reflexivity | exact Hen | exact Hset | exact Hc]. }
  intros Hserver fm msg.
  assert (Hcore2 :
            core (updateCenterTile fm msg d') =
            (true, zoom_ d, Some msg,
             Some (mkTileId tile_url
                     (fromWGSCoordinate
                        (mkWGS (latitude msg) (longitude msg)) (zoom_ d))
                     (zoom_ d)))).
  { unfold updateCenterTile. rewrite Hen', Hen. cbn [negb].
    rewrite Hlast', Hc, Hurl', Hzoom'.
    destruct (TileId_eqb _ c) eqn:Hsame.
    - apply TileId_eqb_eq in Hsame. exfalso. apply Hserver.
      rewrite <- Hsame. reflexivity.
    - cbn [negb].
      rewrite transformTileToMapFrame_core, requestTileTextures_core.
      unfold core; cbn. rewrite Hen', Hen, Hzoom'. reflexivity. }
  unfold core in Hcore2. injection Hcore2 as _ _ Hf Hl. auto.
Qed.

(** X8: a fix on an enabled display whose tile is not the stored center tile
    (or the first fix) is stored together with its tile, and the status
    "NavSatFix okay" is reported last.  With a tile URL set, one request for
    the area around the new center goes to the cache; if the frames cannot
    be looked up, all of this still happens and only the anchor stays as it
    was. *)
Theorem navFixCallback_new_tile (fm : FrameManager) (msg : NavSatFix)
  (d : Display) :
  isEnabled d = true ->
  lastCenterTile_ d <> Some (derived_center_tile d msg) ->
  let d' := navFixCallback fm msg d in
  ref_fix_ d' = Some msg
  /\ lastCenterTile_ d' = Some (derived_center_tile d msg)
  /\ head (statuses d') =
     Some (mkStatus StatusProperty.Ok "Message" "NavSatFix okay")
  /\ (tile_url_ d <> "" ->
      cache_calls d' =
      Request (mkArea (derived_center_tile d msg) (blocks_ d))
        :: cache_calls d)
  /\ (getTransform fm (frame_id msg) (stamp msg) = None
      \/ getTransform fm MAP_FRAME (stamp msg) = None ->
      t_centertile_map d' = t_centertile_map d).
Proof.
  intros Hen Hother d'.
  set (d2 := with_ref_fix_ (Some msg)
               (with_lastCenterTile_ (Some (derived_center_tile d msg)) d)).
  assert (Heq : updateCenterTile fm msg d =
                transformTileToMapFrame fm (requestTileTextures d2)).
  { unfold updateCenterTile. rewrite Hen. cbn [negb].
    fold (derived_center_tile d msg).
    destruct (lastCenterTile_ d) as [last |] eqn:Hlast; [| reflexivity].
    destruct (TileId_eqb (derived_center_tile d msg) last) eqn:Hsame;
      [| reflexivity].
    apply TileId_eqb_eq in Hsame. subst last. contradiction. }
  assert (Hd' : d' = setStatus StatusProperty.Ok "Message" "NavSatFix okay"
                       (transformTileToMapFrame fm (requestTileTextures d2))).
  { subst d'. unfold navFixCallback. rewrite Heq. reflexivity. }
  pose proof (requestTileTextures_core d2) as Hcore.
  unfold core in Hcore. cbn in Hcore. injection Hcore as _ _ Hfix2 Hlast2.
  destruct (transformTileToMapFrame_members fm (requestTileTextures d2))
    as (_ & _ & Hfix3 & Hlast3 & _).
  rewrite Hd'. cbn.
  split; [rewrite Hfix3; exact Hfix2 |].
  split; [rewrite Hlast3; exact Hlast2 |].
  split; [reflexivity |].
  split.
  - intros Hurl. rewrite transformTileToMapFrame_cache_calls.
    rewrite (requestTileTextures_dispatches d2 (derived_center_tile d msg));
      [reflexivity | exact Hen | exact Hurl | reflexivity].
  - intros Hfail.
    destruct (getMapTransform_fails fm _ _ Hfail) as [error Herr].
    unfold transformTileToMapFrame. rewrite Hfix2, Herr. cbn.
    unfold requestTileTextures.
    destruct (negb (isEnabled d2)); [reflexivity |].
    destruct (String.eqb (tile_url_ d2) ""); [reflexivity |].
    destruct (lastCenterTile_ d2) as [c2 |]; [| reflexivity].
    destruct (cache_request (tileCache_ d2) (mkArea c2 (blocks_ d2)))
      as [cache [what |]]; reflexivity.
Qed.

(** X9: when the host has disabled the display, the fix, the center tile and
    the objects are gone; a render update changes nothing, and a fix that
    arrives is not stored and reaches neither the cache nor the objects,
    although "NavSatFix okay" is reported. *)
Theorem onDisable_inert (fm : FrameManager) (msg : NavSatFix)
  (d : Display) :
  let d' := onDisable (with_isEnabled false d) in
  ref_fix_ d' = None
  /\ lastCenterTile_ d' = None
  /\ objects_ d' = []
  /\ head (statuses d') =
     Some (mkStatus StatusProperty.Warn "Message" "No map received yet")
  /\ update fm d' = Some d'
  /\ navFixCallback fm msg d' =
     setStatus StatusProperty.Ok "Message" "NavSatFix okay" d'.
Proof.
  cbn. repeat split.
Qed.

(** X10: a change of the topic on an enabled display (also [reset]) drops
    the fix and the center tile and makes the grid of objects anew, but
    keeps the anchor.  Until the next fix a render update changes nothing,
    and the next fix always re-centers. *)
Theorem updateTopic_resets (fm : FrameManager) (topic : string)
  (failure : option string) (msg : NavSatFix) (d : Display) :
  isEnabled d = true ->
  let d' := updateTopic topic failure d in
  ref_fix_ d' = None
  /\ lastCenterTile_ d' = None
  /\ objects_ d' =
     map new_object (seqZ (count d) (Z.of_nat (grid_size (blocks_ d))))
  /\ t_centertile_map d' = t_centertile_map d
  /\ update fm d' = Some d'
  /\ lastCenterTile_ (navFixCallback fm msg d') =
     Some (derived_center_tile d' msg)
  /\ ref_fix_ (navFixCallback fm msg d') = Some msg.
Proof.
  intros Hen d'.
  assert (Heq : d' = subscribe topic failure (createTileObjects (clearAll d))).
  { subst d'. unfold updateTopic. rewrite Hen. reflexivity. }
  destruct (subscribe_members topic failure (createTileObjects (clearAll d)))
    as (Hg & Hp & Hobjs & _).
  destruct (createTileObjects_members (clearAll d)) as (Hen1 & _ & Hp1 & _).
  rewrite <- Heq in Hg, Hp, Hobjs.
  rewrite Hp1 in Hp. unfold placement in Hp. cbn in Hp.
  injection Hp as _ Hfix Hlast Hanchor _ _.
  unfold geometry in Hg. injection Hg as Hen' _ _ _.
  rewrite Hen1 in Hen'. cbn in Hen'. rewrite Hen in Hen'.
  split; [exact Hfix |]. split; [exact Hlast |].
  split.
  { rewrite Hobjs, createTileObjects_objects. cbn [count blocks_ clearAll
      setStatus destroyTileObjects with_statuses with_objects_
      with_lastCenterTile_ with_ref_fix_].
    unfold grid_size. rewrite Z2Nat.id by nia. reflexivity. }
  split; [exact Hanchor |].
  split; [unfold update; rewrite Hfix; reflexivity |].
  assert (Hcore :
            core (updateCenterTile fm msg d') =
            (true, zoom_ d', Some msg, Some (derived_center_tile d' msg))).
  { unfold updateCenterTile. rewrite Hen', Hlast. cbn [negb].
    rewrite transformTileToMapFrame_core, requestTileTextures_core.
    unfold core; cbn. rewrite Hen'. reflexivity. }
  unfold core in Hcore. injection Hcore as _ _ Hf Hl.
  unfold navFixCallback; cbn. auto.
Qed.

(** X11: [getMapTransform] succeeds exactly when the frame manager resolves
    both the queried frame and the map frame at the given time.  When it
    fails and the frame manager names no problem of the queried frame, the
    error text names the frame whose lookup failed. *)
Theorem getMapTransform_succeeds_iff (fm : FrameManager)
  (query_frame : string) (timestamp : Time) :
  ((exists p, getMapTransform fm query_frame timestamp = inl p) <->
   is_Some (getTransform fm query_frame timestamp)
   /\ is_Some (getTransform fm MAP_FRAME timestamp))
  /\ (transformHasProblems fm query_frame timestamp = None ->
      (getTransform fm query_frame timestamp = None ->
       getMapTransform fm query_frame timestamp =
       inr (String.append "Could not transform from ["
              (String.append query_frame
                 "] to Fixed Frame for an unknown reason")))
      /\ (is_Some (getTransform fm query_frame timestamp) ->
          getTransform fm MAP_FRAME timestamp = None ->
          getMapTransform fm query_frame timestamp =
          inr "Could not transform from [map] to Fixed Frame for an unknown reason")).
Proof.
  unfold getMapTransform.
  destruct (getTransform fm query_frame timestamp) as [[tq oq] |].
  - destruct (getTransform fm MAP_FRAME timestamp) as [[tm om] |].
    + split.
      * split; [intros _; split; eauto | intros _; eauto].
      * intros _. split; [discriminate | intros _ Hnone; discriminate].
    + split.
      * split; [intros [p Hp]; discriminate |].
        intros [_ [y Hy]]. discriminate.
      * intros Hnone. rewrite Hnone.
        split; [discriminate | intros _ _; reflexivity].
  - split.
    + split; [intros [p Hp]; discriminate |].
      intros [[x Hx] _]. discriminate.
    + intros Hnone. rewrite Hnone.
      split; [intros _; reflexivity | intros [x Hx]; discriminate].
Qed.

(** X12: a call of [assembleScene] that returns keeps the objects as
    objects: their number, their names and their order are as before, and
    so is the counter.  It never touches the zoom, the fix, the center tile,
    the anchor, the pose of the scene node or the settings that it reads. *)
Theorem assembleScene_keeps_objects (d d' : Display) :
  assembleScene d = Some d' ->
  object_names d' = object_names d
  /\ length (objects_ d') = length (objects_ d)
  /\ count d' = count d
  /\ placement d' = placement d
  /\ tile_url_ d' = tile_url_ d
  /\ alpha_ d' = alpha_ d
  /\ draw_under_ d' = draw_under_ d
  /\ blocks_ d' = blocks_ d.
Proof.
  intros Hpass.
  destruct (assembleScene_members d d' Hpass) as (Hg & Hp & Hu & Ha & Hdu).
  unfold geometry in Hg. injection Hg as _ Hb Hc Hn.
  split; [exact Hn |].
  split.
  { unfold object_names in Hn.
    rewrite <- (length_map name_suffix (objects_ d')), Hn, length_map.
    reflexivity. }
  repeat split; assumption.
Qed.

(** X14: a render update of a display that holds a fix and a center tile
    places the scene whether or not the tiles were assembled again: when the
    map frame resolves with translation [t] and rotation [q], the scene is
    at [t + q * anchor] with orientation [q]; when it does not, the pose of
    the scene is as before and an error is the last status.  The anchor, the
    fix and the center tile are as before in both cases. *)
Theorem update_places_scene (fm : FrameManager) (d d' : Display)
  (ref_fix : NavSatFix) (c : TileId) :
  update fm d = Some d' ->
  ref_fix_ d = Some ref_fix ->
  lastCenterTile_ d = Some c ->
  t_centertile_map d' = t_centertile_map d
  /\ ref_fix_ d' = Some ref_fix
  /\ lastCenterTile_ d' = Some c
  /\ match getTransform fm MAP_FRAME Time0 with
     | Some (t, q) =>
         scene_position d' = vadd t (qrot q (t_centertile_map d))
         /\ scene_orientation d' = q
         /\ head (statuses d') =
            Some (mkStatus StatusProperty.Ok "Transform" "Transform OK")
     | None =>
         scene_position d' = scene_position d
         /\ scene_orientation d' = scene_orientation d
         /\ exists text : string,
              head (statuses d') =
              Some (mkStatus StatusProperty.Error "Transform" text)
     end.
Proof.
  intros Hupdate Hfix Hc.
  destruct (update_members fm d d' Hupdate) as (_ & _ & Hf & Hl & Ha & _).
  split; [exact Ha |]. split; [rewrite Hf; exact Hfix |].
  split; [rewrite Hl; exact Hc |].
  unfold update in Hupdate. rewrite Hfix, Hc in Hupdate.
  destruct (assembleScene d) as [d1 |] eqn:Hpass; [| discriminate].
  injection Hupdate as <-.
  destruct (assembleScene_members d d1 Hpass) as (_ & Hp & _).
  unfold placement in Hp. injection Hp as _ _ _ Hanchor Hpos Hori.
  unfold transformMapTileToFixedFrame.
  destruct (getTransform fm MAP_FRAME Time0) as [[t q] |].
  - cbn. rewrite Hanchor. repeat split.
  - destruct (transformHasProblems fm MAP_FRAME Time0); cbn;
      rewrite Hpos, Hori; repeat split; eauto.
Qed.

End Slots.

(** ** The disabled display *)

Section Disabled.
Context `{Scalar} `{!OgreMath} `{!Mercator} `{!TileCacheOps}.

(** X15: in every state that the display reaches, the fix and the center
    tile are set together, and a disabled display holds neither of them and
    no tile object. *)
Theorem reachable_fix_with_center (d : Display) :
  reachable d ->
  (ref_fix_ d = None <-> lastCenterTile_ d = None)
  /\ (isEnabled d = false ->
      ref_fix_ d = None /\ lastCenterTile_ d = None /\ objects_ d = []).
Proof.
  intros Hreach.
  assert (Htidy : tidy d).
  { induction Hreach as [? ? ? ? ? | d d' _ IH Hstep];
      [apply initial_tidy | eapply step_tidy; eassumption]. }
  destruct (reachable_consistent d Hreach) as (_ & Hboth & Hoff).
  split; [exact Hboth |].
  intros Hdis. destruct Htidy as (_ & Hnone & _).
  specialize (Hoff Hdis).
  split; [apply Hboth; exact Hoff |]. split; [exact Hoff | auto].
Qed.

(** X16: a display that is disabled before and after a call of the host
    never reaches the tile cache in that call: the cache and the calls made
    on it are as before. *)
Theorem disabled_display_spares_cache (d d' : Display) :
  step d d' ->
  isEnabled d = false ->
  isEnabled d' = false ->
  tileCache_ d' = tileCache_ d /\ cache_calls d' = cache_calls d.
Proof.
  intros Hstep Hdis Hdis'.
  destruct Hstep
    as [topic failure d | d | topic failure d | alpha d | draw_under d
       | tile_url d | fm z d | blocks d | fm msg d | fm d d' Hupdate].
  - exfalso.
    destruct (subscribe_members topic failure
                (createTileObjects (with_isEnabled true d))) as (Hg & _).
    destruct (createTileObjects_members (with_isEnabled true d))
      as (Hen & _).
    unfold geometry in Hg. injection Hg as Hen' _ _ _.
    unfold onEnable in Hdis'. rewrite Hen', Hen in Hdis'. discriminate.
  - split; reflexivity.
  - unfold updateTopic. rewrite Hdis. split; reflexivity.
  - unfold updateAlpha. destruct (req_b alpha (alpha_ d)); [auto |].
    cbn. rewrite Hdis. auto.
  - unfold updateDrawUnder.
    destruct (Bool.eqb draw_under (draw_under_ d)); [auto |].
    cbn. rewrite Hdis. auto.
  - unfold updateTileUrl.
    destruct (String.eqb tile_url (tile_url_ d)); [auto |].
    cbn. rewrite Hdis. auto.
  - unfold updateZoom. destruct (z =? zoom_ d); [auto |].
    cbn. rewrite Hdis. auto.
  - unfold updateBlocks. destruct (blocks =? blocks_ d); [auto |].
    cbn. rewrite Hdis. auto.
  - unfold navFixCallback, updateCenterTile. rewrite Hdis. auto.
  - unfold update in Hupdate.
    destruct (ref_fix_ d); [| injection Hupdate as <-; auto].
    destruct (lastCenterTile_ d); [| injection Hupdate as <-; auto].
    unfold assembleScene in Hupdate. rewrite Hdis in Hupdate.
    cbn in Hupdate. injection Hupdate as <-.
    destruct (transformMapTileToFixedFrame_members fm d)
      as (_ & _ & _ & _ & _ & _ & -> & -> & _).
    auto.
Qed.

End Disabled.

(** ** The size of an area *)

Section AreaSize.
Context `{Scalar} `{!OgreMath} `{!Mercator} `{!TileCacheOps}.

Lemma length_pairs (xs ys : list Z) :
  length (flat_map (fun xx => map (fun yy => (xx, yy)) ys) xs) =
  (length xs * length ys)%nat.
Proof.
  induction xs as [| xx xs IH]; cbn.
  - reflexivity.
  - rewrite length_app, length_map, IH. reflexivity.
Qed.

(** An area has as many slots as its two ranges have values. *)
Lemma area_slots_length (area : Area) :
  length (area_slots area) =
  (Z.to_nat (tx (rightBottom area) + 1 - tx (leftTop area))
   * Z.to_nat (ty (rightBottom area) + 1 - ty (leftTop area)))%nat.
Proof.
  unfold area_slots, int_range.
  rewrite length_pairs, !length_seqZ. reflexivity.
Qed.

End AreaSize.

(** ** The two arithmetics *)

(** In every IEEE format, subtracting is adding the opposite. *)
Lemma SFsub_SFadd_SFopp (prec emax : Z) (x y : spec_float) :
  SFsub prec emax x y = SFadd prec emax x (SFopp y).
Proof.
  destruct x as [sx | sx | | sx mx ex], y as [sy | sy | | sy my ey];
    cbn; try reflexivity;
    destruct sx, sy; reflexivity.
Qed.

Lemma binary64_add_opp (a b : float) :
  PrimFloat.add a (PrimFloat.opp b) = PrimFloat.sub a b.
Proof.
  rewrite <- (SF2Prim_Prim2SF (PrimFloat.add a (PrimFloat.opp b))).
  rewrite <- (SF2Prim_Prim2SF (PrimFloat.sub a b)).
  rewrite add_spec, sub_spec, opp_spec.
  unfold SF64add, SF64sub. rewrite SFsub_SFadd_SFopp. reflexivity.
Qed.

Lemma exact_add_opp (a b : Qc) : Qcplus a (Qcopp b) = Qcminus a b.
Proof. reflexivity. Qed.

(** In exact arithmetic a common summand cancels in a difference. *)
Lemma exact_cancel (a b c : Qc) :
  Qcminus (Qcplus a b) (Qcplus a c) = Qcminus b c.
Proof. ring. Qed.

(** In binary64 it need not: 2^53 + 1 rounds to 2^53. *)
Remark binary64_no_cancel :
  PrimFloat.sub
    (PrimFloat.add (Binary64.of_Z (2 ^ 53)) (Binary64.of_Z 1))
    (PrimFloat.add (Binary64.of_Z (2 ^ 53)) (Binary64.of_Z 0))
  = Binary64.of_Z 0
  /\ PrimFloat.sub (Binary64.of_Z 1) (Binary64.of_Z 0) = Binary64.of_Z 1.
Proof. split; vm_compute; reflexivity. Qed.

(** ** The properties on the small world *)

#[local] Existing Instance Binary64.binary64.
#[local] Existing Instance World.quarter_turns.
#[local] Existing Instance World.equirectangular.
#[local] Existing Instance World.list_cache.

Example binary64_floor :
  map Binary64.floor
    [of_decimal 3278620 2; of_decimal (-25) 2; of_decimal 5 1; of_int (-3)]
  = [of_int 32786; of_int (-1); of_int 0; of_int (-3)].
Proof. vm_compute. reflexivity. Qed.

Example located_center_tile :
  lastCenterTile_ World.located = Some World.center_a
  /\ ref_fix_ World.located = Some World.fix_a
  /\ isEnabled World.located = true
  /\ dirty_ World.located = true
  /\ length (objects_ World.located) = 49%nat.
Proof. repeat split; vm_compute; reflexivity. Qed.

Lemma located_reachable : reachable World.located.
Proof.
  unfold World.located, World.configured, World.enabled, World.constructed.
  eapply reachable_step; [| apply step_fix].
  eapply reachable_step; [| apply step_tile_url].
  eapply reachable_step; [| apply step_enable].
  apply reachable_initial.
Qed.

(** The thresholds on doubles: 0.96 is an error; 0.95 itself, and so every
    [float] up to it, is a warning; 0.3 itself is Ok. *)
Example checkRequestErrorRate_on_doubles :
  map (fun rate =>
         option_map st_level
           (head (statuses
                    (checkRequestErrorRate
                       (with_tileCache_
                          (World.mkListCache [] rate) World.located)))))
    [of_decimal 96 2; of_decimal 95 2; of_decimal 31 2; of_decimal 3 1;
     of_int 0]
  = [Some StatusProperty.Error; Some StatusProperty.Warn;
     Some StatusProperty.Warn; Some StatusProperty.Ok; Some StatusProperty.Ok].
Proof. vm_compute. reflexivity. Qed.

Lemma transformTileToMapFrame_anchor_witness :
  let t := mkVector3 (of_int 2) (of_int (-1)) (of_int 1) in
  ref_fix_ World.located = Some World.fix_a
  /\ getMapTransform World.frames "gps" 0 = inl (t, 0%nat)
  /\ t_centertile_map (transformTileToMapFrame World.frames World.located) =
     vsub t
       (sub_tile_offset (getTileWH World.located) World.fix_a
          (zoom_ World.located)).
Proof.
  split; [reflexivity |].
  split; [vm_compute; reflexivity |].
  apply (transformTileToMapFrame_anchor World.frames World.located World.fix_a
           (mkVector3 (of_int 2) (of_int (-1)) (of_int 1)) 0%nat).
  - exact binary64_add_opp.
  - reflexivity.
  - vm_compute. reflexivity.
Defined.

(** The tick on the doubles, a quarter turn: (10, 20, 0) plus the anchor
    turned. *)
Example transformMapTileToFixedFrame_on_located :
  let d' := transformMapTileToFixedFrame World.frames World.located in
  scene_position d' =
    vadd (mkVector3 (of_int 10) (of_int 20) (of_int 0))
      (World.quarter_turn (t_centertile_map World.located))
  /\ scene_orientation d' = 1%nat.
Proof. split; reflexivity. Qed.

(** On the doubles the common summand does not cancel.  With the anchor
    (0.1, 0.2, 0) and the translation (10, 20, 0), a quarter turn puts the
    scene at (9.8, 20.1, 0) and a half turn at (9.9, 19.8, 0); the difference
    of the two positions is not the difference (-0.1, 0.3, 0) of the two
    turned anchors, in the x and in the y component. *)
Lemma transformMapTileToFixedFrame_composition_counterexample :
  let t := mkVector3 (of_int 10) (of_int 20) (of_int 0) in
  let anchor := t_centertile_map World.tilted in
  let d1 := transformMapTileToFixedFrame World.frames World.tilted in
  let d2 := transformMapTileToFixedFrame World.frames_turned World.tilted in
  let positions := vsub (scene_position d1) (scene_position d2) in
  let turned := vsub (qrot 1%nat anchor) (qrot 2%nat anchor) in
  getTransform World.frames MAP_FRAME Time0 = Some (t, 1%nat)
  /\ getTransform World.frames_turned MAP_FRAME Time0 = Some (t, 2%nat)
  /\ anchor = mkVector3 (of_decimal 1 1) (of_decimal 2 1) (of_int 0)
  /\ scene_position d1 =
     mkVector3 (of_decimal 98 1) (of_decimal 201 1) (of_int 0)
  /\ scene_position d2 =
     mkVector3 (of_decimal 99 1) (of_decimal 198 1) (of_int 0)
  /\ req_b (vx positions) (vx turned) = false
  /\ req_b (vy positions) (vy turned) = false
  /\ rgt_b (vx positions) (vx turned) = true
  /\ rgt_b (vy positions) (vy turned) = true.
Proof. cbv zeta. repeat split; vm_compute; reflexivity. Qed.

Lemma transformTileToMapFrame_lookup_fails_witness :
  exists error : string,
    transformTileToMapFrame World.no_frames World.located =
      setStatus StatusProperty.Error "Transform" error World.located
    /\ statuses (transformTileToMapFrame World.no_frames World.located) =
       mkStatus StatusProperty.Error "Transform" error
         :: statuses World.located
    /\ t_centertile_map
         (transformTileToMapFrame World.no_frames World.located) =
       t_centertile_map World.located.
Proof.
  apply (transformTileToMapFrame_lookup_fails World.no_frames World.located
           World.fix_a).
  - reflexivity.
  - left. reflexivity.
Defined.

Lemma requestTileTextures_empty_url_witness :
  tile_url_ World.enabled = ""
  /\ isEnabled World.enabled = true
  /\ statuses (requestTileTextures World.enabled) =
     mkStatus StatusProperty.Error "TileRequest" "Tile URL is not set"
       :: statuses World.enabled
  /\ tileCache_ (requestTileTextures World.enabled) = World.cache_a
  /\ cache_calls (requestTileTextures World.enabled) = []
  /\ cache_calls (updateBlocks 2 World.enabled) = []
  /\ cache_calls (updateCenterTile World.frames World.fix_a World.enabled) = []
  /\ cache_calls (updateTileUrl "" World.configured) = [].
Proof.
  destruct (requestTileTextures_empty_url World.enabled)
    as (_ & Hstatus & Hcache & Hcalls & _ & Hblocks & Hcenter & Hurl).
  - reflexivity.
  - reflexivity.
  - split; [reflexivity |]. split; [reflexivity |].
    split; [exact Hstatus |]. split; [exact Hcache |].
    split; [exact Hcalls |].
    split; [apply (Hblocks 2); vm_compute; discriminate |].
    split; [apply (Hcenter World.frames World.fix_a); vm_compute; discriminate |].
    apply (Hurl World.configured); [reflexivity | vm_compute; discriminate].
Defined.

Lemma updateCenterTile_same_tile_witness :
  req_b (longitude World.fix_b) (longitude World.fix_a) = false
  /\ lastCenterTile_ World.located =
     Some (derived_center_tile World.located World.fix_b)
  /\ updateCenterTile World.frames World.fix_b World.located = World.located.
Proof.
  split; [vm_compute; reflexivity |].
  split; [vm_compute; reflexivity |].
  apply (updateCenterTile_same_tile World.frames World.fix_b World.located).
  vm_compute. reflexivity.
Defined.

Lemma located_pass_runs : pass_runs World.located World.center_a World.fix_a.
Proof.
  unfold pass_runs.
  split; [reflexivity |].
  split; [vm_compute; reflexivity |].
  split; [vm_compute; reflexivity |].
  split; [vm_compute; discriminate |].
  apply Nat.leb_le. vm_compute. reflexivity.
Defined.

(** The pass on the small world.  The area is the rectangle from
    (32783, 32728) to (32789, 32734) around the center tile.  The center
    tile is drawn on the object at place 24, which is shown with the texture
    of that tile; the tile in the upper left corner is not ready, and its
    object, at place 0, is hidden. *)
Lemma assembleScene_visibility_witness :
  let area := mkArea World.center_a (blocks_ World.located) in
  leftTop area = mkTileCoordinate 32783 32728
  /\ rightBottom area = mkTileCoordinate 32789 32734
  /\ in_rectangle area 32786 32731
  /\ in_rectangle area 32783 32728
  /\ slot_index area 32786 32731 = 24%nat
  /\ slot_index area 32783 32728 = 0%nat
  /\ exists d' : Display,
       assembleScene World.located = Some d'
       /\ (exists o' : MapObject,
              objects_ d' !! 24%nat = Some o'
              /\ name_suffix o' = 24
              /\ visible o' = true
              /\ texture o' = Some "tile_32786_32731")
       /\ (exists o' : MapObject,
              objects_ d' !! 0%nat = Some o'
              /\ name_suffix o' = 0
              /\ visible o' = false).
Proof.
  intros area.
  assert (Hcenter : in_rectangle area 32786 32731)
    by (unfold in_rectangle; repeat split; vm_compute; discriminate).
  assert (Hcorner : in_rectangle area 32783 32728)
    by (unfold in_rectangle; repeat split; vm_compute; discriminate).
  split; [reflexivity |]. split; [reflexivity |].
  split; [exact Hcenter |]. split; [exact Hcorner |].
  split; [reflexivity |]. split; [reflexivity |].
  destruct (assembleScene_visibility World.located World.center_a World.fix_a
              located_pass_runs eq_refl)
    as (d' & Hpass & Hslots & _).
  exists d'. split; [exact Hpass |].
  split.
  - destruct (Hslots 32786 32731 Hcenter)
      as (o & o' & Ho & Ho' & Hname & Hshown).
    exists o'. split; [exact Ho' |].
    vm_compute in Ho. injection Ho as <-.
    vm_compute in Hshown.
    split; [exact Hname |]. exact Hshown.
  - destruct (Hslots 32783 32728 Hcorner)
      as (o & o' & Ho & Ho' & Hname & Hhidden).
    exists o'. split; [exact Ho' |].
    vm_compute in Ho. injection Ho as <-.
    vm_compute in Hhidden.
    split; [exact Hname |]. exact Hhidden.
Defined.

(** The pass on the small world: the center tile and its eastern neighbour
    are shown with their textures, the other 47 objects are hidden, and the
    display stays dirty. *)
Example assembleScene_on_located :
  option_map
    (fun d' =>
       (dirty_ d',
        filter (fun o => visible o = true) (objects_ d'),
        length (filter (fun o => visible o = false) (objects_ d'))))
    (assembleScene World.located)
  = Some (true,
          [show_object World.located World.center_a World.fix_a 32786 32731
             (mkOgreTile "tile_32786_32731") (new_object 24);
           show_object World.located World.center_a World.fix_a 32787 32731
             (mkOgreTile "tile_32787_32731") (new_object 31)],
          47%nat).
Proof. vm_compute. reflexivity. Qed.

(** The pass on the small world ends dirty: the tile in the upper left
    corner of the rectangle is not ready, and the next call is a pass again.
    With a grid of one tile, the center tile, which the cache has ready, the
    pass ends clean and the next call is skipped. *)
Lemma assembleScene_dirty_witness :
  let area := mkArea World.center_a (blocks_ World.located) in
  let single := updateBlocks 0 World.located in
  in_rectangle area 32783 32728
  /\ cache_ready (tileCache_ World.located)
       (mkTileId World.server (mkTileCoordinate 32783 32728) 16) = None
  /\ (exists d' : Display,
         assembleScene World.located = Some d'
         /\ dirty_ d' = true
         /\ pass_runs d' World.center_a World.fix_a)
  /\ pass_runs single World.center_a World.fix_a
  /\ dirty_ single = true
  /\ exists d' : Display,
       assembleScene single = Some d'
       /\ dirty_ d' = false
       /\ assembleScene d' = Some d'.
Proof.
  intros area single.
  assert (Hcorner : in_rectangle area 32783 32728)
    by (unfold in_rectangle; repeat split; vm_compute; discriminate).
  assert (Hruns : pass_runs single World.center_a World.fix_a).
  { unfold pass_runs.
    split; [vm_compute; reflexivity |].
    split; [vm_compute; reflexivity |].
    split; [vm_compute; reflexivity |].
    split; [vm_compute; discriminate |].
    apply Nat.leb_le. vm_compute. reflexivity. }
  split; [exact Hcorner |].
  split; [vm_compute; reflexivity |].
  split; [| split; [exact Hruns | split; [vm_compute; reflexivity |]]].
  - destruct (assembleScene_dirty World.located World.center_a World.fix_a
                located_pass_runs eq_refl)
      as (d' & Hpass & [_ Hset] & _ & _ & Hnext).
    assert (Hdirty : dirty_ d' = true).
    { apply Hset. exists 32783, 32728.
      split; [exact Hcorner | vm_compute; reflexivity]. }
    exists d'. split; [exact Hpass |].
    split; [exact Hdirty | exact (Hnext Hdirty)].
  - assert (Hd : dirty_ single = true) by (vm_compute; reflexivity).
    destruct (assembleScene_dirty single World.center_a World.fix_a Hruns Hd)
      as (d' & Hpass & _ & [_ Hclear] & Hskip & _).
    assert (Hclean : dirty_ d' = false).
    { apply Hclear. intros xx yy [Hx Hy].
      vm_compute in Hx. vm_compute in Hy.
      assert (xx = 32786) as -> by (destruct Hx as [H1 H2]; apply Z.le_antisymm; assumption).
      assert (yy = 32731) as -> by (destruct Hy as [H1 H2]; apply Z.le_antisymm; assumption).
      vm_compute. eauto. }
    exists d'. split; [exact Hpass |].
    split; [exact Hclean | exact (Hskip Hclean)].
Defined.

(** On the small world: the opacity 0.5 is stored and the display is dirty;
    a zoom change from 16 to 17 makes 49 new objects, centers the display on
    the tile (65572, 65463) of level 17 and requests its area.  After the
    tile URL is taken away, the same zoom change reaches no cache and reports
    that the tile URL is not set; where no frame resolves, it leaves the
    anchor as it is. *)
Lemma updateAlpha_updateZoom_effects_witness :
  let d' := updateZoom World.frames 17 World.located in
  let center := mkTileId World.server (mkTileCoordinate 65572 65463) 17 in
  let no_url := updateTileUrl "" World.located in
  same_but_alpha_and_dirty World.located
    (updateAlpha (of_decimal 5 1) World.located)
  /\ alpha_ (updateAlpha (of_decimal 5 1) World.located) = of_decimal 5 1
  /\ dirty_ (updateAlpha (of_decimal 5 1) World.located) = true
  /\ zoom_ d' = 17
  /\ objects_ d' = map new_object (seqZ 49 49)
  /\ lastCenterTile_ d' = Some center
  /\ cache_calls d' =
     Request (mkArea center 3) :: cache_calls World.located
  /\ reachable no_url
  /\ ref_fix_ no_url = Some World.fix_a
  /\ cache_calls (updateZoom World.frames 17 no_url) = cache_calls no_url
  /\ In (mkStatus StatusProperty.Error "TileRequest" "Tile URL is not set")
       (statuses (updateZoom World.frames 17 no_url))
  /\ t_centertile_map (updateZoom World.no_frames 17 World.located) =
     t_centertile_map World.located.
Proof.
  intros d' center no_url.
  assert (Hreach : reachable no_url).
  { eapply reachable_step; [exact located_reachable | apply step_tile_url]. }
  destruct (updateAlpha_updateZoom_effects World.frames 17 World.located)
    as (Halpha & _ & Hon).
  { exact located_reachable. }
  { vm_compute. discriminate. }
  destruct (updateAlpha_updateZoom_effects World.frames 17 no_url)
    as (_ & _ & Hon_no_url).
  { exact Hreach. }
  { vm_compute. discriminate. }
  destruct (updateAlpha_updateZoom_effects World.no_frames 17 World.located)
    as (_ & _ & Hon_no_frames).
  { exact located_reachable. }
  { vm_compute. discriminate. }
  destruct (Halpha (of_decimal 5 1) World.located) as (Hsame & _ & Hstore).
  destruct Hstore as (Hstored & Hdirty & _); [vm_compute; reflexivity |].
  destruct (Hon eq_refl) as (Hzoom & Hobjs & _ & Hfix).
  destruct (Hfix World.fix_a eq_refl) as (_ & Hcenter & _ & _ & Hcalls & _).
  destruct Hon_no_url as (_ & _ & _ & Hfix_no_url); [vm_compute; reflexivity |].
  destruct (Hfix_no_url World.fix_a) as (_ & _ & _ & _ & _ & Hempty & _);
    [vm_compute; reflexivity |].
  destruct Hempty as (Hcalls0 & _ & Hstatus); [vm_compute; reflexivity |].
  destruct (Hon_no_frames eq_refl) as (_ & _ & _ & Hfix_no_frames).
  destruct (Hfix_no_frames World.fix_a eq_refl)
    as (_ & _ & _ & _ & _ & _ & _ & Hfails).
  destruct Hfails as [Hanchor _]; [left; reflexivity |].
  split; [exact Hsame |].
  split; [exact Hstored |].
  split; [exact (Hdirty eq_refl) |].
  split; [exact Hzoom |].
  split; [exact Hobjs |].
  split; [unfold d'; rewrite Hcenter; vm_compute; reflexivity |].
  split; [unfold d'; rewrite Hcalls; [vm_compute; reflexivity | vm_compute; discriminate] |].
  split; [exact Hreach |].
  split; [vm_compute; reflexivity |].
  split; [exact Hcalls0 |].
  split; [exact Hstatus | exact Hanchor].
Defined.

(** The display as constructed is disabled: a zoom change from 16 to 17
    stores the zoom and makes no objects, where making the tile objects anew
    would give 49 of them. *)
Lemma updateZoom_disabled_counterexample :
  isEnabled World.constructed = false
  /\ zoom_ World.constructed = 16
  /\ zoom_ (updateZoom World.frames 17 World.constructed) = 17
  /\ updateZoom World.frames 17 World.constructed =
     with_zoom_ 17 World.constructed
  /\ objects_ (updateZoom World.frames 17 World.constructed) = []
  /\ count (updateZoom World.frames 17 World.constructed) = 0
  /\ length (objects_ (createTileObjects (with_zoom_ 17 World.constructed)))
     = 49%nat.
Proof. repeat split; vm_compute; reflexivity. Qed.

(** ** More properties on the small world *)

(** The areas of the small world are clamped squares around the center. *)
Lemma World_area_fits : area_fits.
Proof.
  intros c blocks. rewrite area_slots_length. cbn.
  unfold grid_size.
  set (w := Z.min (2 ^ zoom c - 1) (tx (coord c) + blocks) + 1
            - Z.max 0 (tx (coord c) - blocks)).
  set (h := Z.min (2 ^ zoom c - 1) (ty (coord c) + blocks) + 1
            - Z.max 0 (ty (coord c) - blocks)).
  assert (Hw : w <= 2 * blocks + 1) by (subst w; lia).
  assert (Hh : h <= 2 * blocks + 1) by (subst h; lia).
  destruct (Z_lt_le_dec blocks 0) as [Hneg | Hpos].
  - replace (Z.to_nat w) with 0%nat by lia. cbn. lia.
  - rewrite Z2Nat.inj_mul by lia.
    apply Nat.mul_le_mono; lia.
Qed.

Lemma reachable_tidy_witness :
  length (objects_ World.located) = grid_size (blocks_ World.located)
  /\ NoDup (object_names World.located)
  /\ Forall (fun n => n < count World.located) (object_names World.located).
Proof.
  destruct (reachable_tidy World.located located_reachable)
    as (Hon & _ & Hdup & Hlt).
  split; [apply Hon; reflexivity | split; assumption].
Defined.

Lemma update_defined_witness :
  exists d' : Display, update World.frames World.located = Some d'.
Proof.
  apply (update_defined World.frames World.located).
  - exact World_area_fits.
  - exact located_reachable.
Defined.

Lemma reachable_centered_witness :
  exists ref_fix : NavSatFix,
    ref_fix_ World.located = Some ref_fix
    /\ coord World.center_a =
       fromWGSCoordinate (mkWGS (latitude ref_fix) (longitude ref_fix))
         (zoom_ World.located)
    /\ zoom World.center_a = zoom_ World.located.
Proof.
  apply (reachable_centered World.located located_reachable World.center_a).
  vm_compute. reflexivity.
Defined.

Lemma updateTileUrl_requests_stored_center_witness :
  let d' := updateTileUrl World.other_server World.located in
  tile_url_ d' = World.other_server
  /\ lastCenterTile_ d' = Some World.center_a
  /\ tileServer World.center_a = World.server
  /\ cache_calls d' =
     Request (mkArea World.center_a (blocks_ World.located))
       :: cache_calls World.located
  /\ lastCenterTile_ (updateCenterTile World.frames World.fix_b d') =
     Some (mkTileId World.other_server (mkTileCoordinate 32786 32731) 16).
Proof.
  destruct (updateTileUrl_requests_stored_center World.other_server
              World.located World.center_a)
    as (Hurl & Hlast & Hcalls & Hnext).
  - reflexivity.
  - vm_compute. reflexivity.
  - vm_compute. discriminate.
  - vm_compute. discriminate.
  - split; [exact Hurl |]. split; [exact Hlast |].
    split; [reflexivity |]. split; [exact Hcalls |].
    destruct (Hnext ltac:(vm_compute; discriminate) World.frames World.fix_b)
      as [Hcenter _].
    rewrite Hcenter. vm_compute. reflexivity.
Defined.

Lemma navFixCallback_new_tile_witness :
  let d' := navFixCallback World.frames World.fix_a World.configured in
  lastCenterTile_ World.configured = None
  /\ ref_fix_ d' = Some World.fix_a
  /\ lastCenterTile_ d' =
     Some (derived_center_tile World.configured World.fix_a)
  /\ cache_calls d' =
     Request
       (mkArea (derived_center_tile World.configured World.fix_a)
          (blocks_ World.configured))
       :: cache_calls World.configured.
Proof.
  destruct (navFixCallback_new_tile World.frames World.fix_a World.configured)
    as (Hfix & Hlast & _ & Hcalls & _).
  - reflexivity.
  - vm_compute. discriminate.
  - split; [vm_compute; reflexivity |].
    split; [exact Hfix |]. split; [exact Hlast |].
    apply Hcalls. vm_compute. discriminate.
Defined.

Lemma updateTopic_resets_witness :
  let d' := updateTopic "/other_fix" None World.located in
  ref_fix_ d' = None
  /\ lastCenterTile_ d' = None
  /\ length (objects_ d') = 49%nat
  /\ t_centertile_map d' = t_centertile_map World.located
  /\ update World.frames d' = Some d'
  /\ ref_fix_ (navFixCallback World.frames World.fix_b d') = Some World.fix_b.
Proof.
  destruct (updateTopic_resets World.frames "/other_fix" None World.fix_b
              World.located)
    as (Hfix & Hlast & Hobjs & Hanchor & Hupdate & _ & Hnext).
  - reflexivity.
  - split; [exact Hfix |]. split; [exact Hlast |].
    split; [rewrite Hobjs; vm_compute; reflexivity |].
    split; [exact Hanchor |]. split; [exact Hupdate | exact Hnext].
Defined.

Lemma assembleScene_keeps_objects_witness :
  assembleScene World.located = Some World.assembled
  /\ object_names World.assembled = object_names World.located
  /\ length (objects_ World.assembled) = length (objects_ World.located)
  /\ count World.assembled = count World.located
  /\ placement World.assembled = placement World.located.
Proof.
  assert (Hpass : assembleScene World.located = Some World.assembled)
    by (vm_compute; reflexivity).
  destruct (assembleScene_keeps_objects World.located World.assembled Hpass)
    as (Hn & Hl & Hc & Hp & _).
  split; [exact Hpass |]. split; [exact Hn |]. split; [exact Hl |].
  split; [exact Hc | exact Hp].
Defined.

Lemma update_places_scene_witness :
  let t := mkVector3 (of_int 10) (of_int 20) (of_int 0) in
  update World.frames World.located = Some World.rendered
  /\ t_centertile_map World.rendered = t_centertile_map World.located
  /\ scene_position World.rendered =
     vadd t (qrot 1%nat (t_centertile_map World.located))
  /\ scene_orientation World.rendered = 1%nat.
Proof.
  assert (Hupdate : update World.frames World.located = Some World.rendered)
    by (vm_compute; reflexivity).
  destruct (update_places_scene World.frames World.located World.rendered
              World.fix_a World.center_a Hupdate)
    as (Hanchor & _ & _ & Hpose).
  - reflexivity.
  - vm_compute. reflexivity.
  - split; [exact Hupdate |]. split; [exact Hanchor |].
    destruct Hpose as (Hpos & Hori & _).
    split; [exact Hpos | exact Hori].
Defined.

Lemma reachable_fix_with_center_witness :
  (ref_fix_ World.located = None <-> lastCenterTile_ World.located = None)
  /\ (isEnabled World.located = false ->
      ref_fix_ World.located = None
      /\ lastCenterTile_ World.located = None
      /\ objects_ World.located = []).
Proof.
  apply (reachable_fix_with_center World.located).
  exact located_reachable.
Defined.

Lemma disabled_display_spares_cache_witness :
  let d' := updateZoom World.frames 17 World.constructed in
  tileCache_ d' = tileCache_ World.constructed
  /\ cache_calls d' = cache_calls World.constructed.
Proof.
  apply (disabled_display_spares_cache World.constructed
           (updateZoom World.frames 17 World.constructed)).
  - apply step_zoom.
  - reflexivity.
  - reflexivity.
Defined.

(** ** The render tick in both arithmetics *)

#[local] Existing Instance Exact.exact | 0.

(** The tick on the doubles, with the anchor (0.1, 0.2, 0), and on the exact
    numbers, with the anchor (3/2, -5/2, 0), where the difference of the two
    positions is the difference of the two turned anchors. *)
Lemma transformMapTileToFixedFrame_composition_witness :
  let d1 := transformMapTileToFixedFrame World.frames World.tilted in
  let d2 := transformMapTileToFixedFrame World.frames_turned World.tilted in
  let p1 : @Vector3 Binary64.binary64 :=
    mkVector3 (of_decimal 98 1) (of_decimal 201 1) (of_int 0) in
  let p2 : @Vector3 Binary64.binary64 :=
    mkVector3 (of_decimal 99 1) (of_decimal 198 1) (of_int 0) in
  let t : @Vector3 Exact.exact :=
    mkVector3 (of_int 10) (of_int 20) (of_int 0) in
  let anchor := t_centertile_map World.exact_anchored in
  let e1 :=
    transformMapTileToFixedFrame (World.exact_frames 1) World.exact_anchored in
  let e2 :=
    transformMapTileToFixedFrame (World.exact_frames 2) World.exact_anchored in
  (scene_position d1 = p1
   /\ scene_orientation d1 = 1%nat
   /\ t_centertile_map d1 = t_centertile_map World.tilted
   /\ scene_position d2 = p2
   /\ scene_orientation d2 = 2%nat)
  /\ scene_position e1 = vadd t (qrot 1%nat anchor)
  /\ scene_orientation e1 = 1%nat
  /\ scene_position e2 = vadd t (qrot 2%nat anchor)
  /\ scene_orientation e2 = 2%nat
  /\ vsub (scene_position e1) (scene_position e2) =
     vsub (qrot 1%nat anchor) (qrot 2%nat anchor).
Proof.
  intros d1 d2 p1 p2 t anchor e1 e2. split.
  - destruct (transformMapTileToFixedFrame_composition World.frames
                World.frames_turned World.tilted
                (@mkVector3 Binary64.binary64 (of_int 10) (of_int 20)
                   (of_int 0)) 1%nat 2%nat)
      as (Hp1 & Ho1 & Ha1 & Hp2 & Ho2 & _).
    + reflexivity.
    + reflexivity.
    + split; [unfold d1; rewrite Hp1; vm_compute; reflexivity |].
      split; [exact Ho1 |]. split; [exact Ha1 |].
      split; [unfold d2; rewrite Hp2; vm_compute; reflexivity | exact Ho2].
  - destruct (transformMapTileToFixedFrame_composition (World.exact_frames 1)
                (World.exact_frames 2) World.exact_anchored
                (mkVector3 (of_int 10) (of_int 20) (of_int 0)) 1%nat 2%nat)
      as (Hp1 & Ho1 & _ & Hp2 & Ho2 & _ & Hdiff).
    + reflexivity.
    + reflexivity.
    + split; [exact Hp1 |]. split; [exact Ho1 |].
      split; [exact Hp2 |]. split; [exact Ho2 |].
      apply Hdiff. exact exact_cancel.
Defined.
